(** * Failure classification, unhandled-rejection policy and model fallback

    A shallow embedding of [src/infra/unhandled-rejections.ts]: the error
    predicates [isAbortError], [isFatalError], [isConfigError],
    [isRateLimitError], [isTransientNetworkError], the handler registry with
    [isUnhandledRejectionHandled], and the listener installed by
    [installUnhandledRejectionHandler]; and of the fallback orchestrator
    that [src/agents/model-fallback.ratelimit.test.ts] exercises.

    Error values are JavaScript values over a heap of objects, so that a
    [cause] can lead back to the error it belongs to.  A call that recurses
    takes the depth of stack it may use. *)

From stdpp Require Import base gmap strings list.
From Stdlib Require Import ZArith Ascii String DecimalString Lia.

Local Open Scope string_scope.

(** ** JavaScript values *)

Module JS.

(** A number is carried by its canonical decimal rendering, the text that
    [Number::toString] produces ("429", "0.5", "NaN", "-Infinity",
    "1e+21").  The rendering determines the number up to the sign of zero,
    and the code under study only compares a number with [429], tests its
    truthiness or converts it with [String()]; the two zeros agree on all
    three. *)
Record number := Num { num_text : string }.

Definition addr := nat.

(** Primitive values and references into the heap.  A symbol has an
    identity besides its description. *)
Inductive value :=
  | VUndefined
  | VNull
  | VBool (b : bool)
  | VNum (n : number)
  | VBigInt (z : Z)
  | VStr (s : string)
  | VSymbol (id : nat) (description : string)
  | VRef (a : addr).

(** What [instanceof] can tell about an object: the constructor family of
    its prototype chain. *)
Inductive class_ :=
  | PlainObject
  | ErrorClass
  | TypeErrorClass
  | AggregateErrorClass
  | OtherErrorClass.

(** An object holds data properties: [props] maps every name that a
    property read reaches (own or inherited) to its value, so a key bound
    to [VUndefined] is a property that is present and undefined.  [elems]
    is [Some] for arrays.  [text] is what [String(o)] yields.  Accessor
    properties, proxies, callable objects and objects whose conversion to
    a string fails are not represented. *)
Record object := Obj {
  cls : class_;
  props : gmap string value;
  elems : option (list value);
  text : string
}.

Definition heap := gmap addr object.

Definition empty_object : object :=
  {| cls := PlainObject; props := ∅; elems := None; text := "[object Object]" |}.

Definition obj_at (h : heap) (a : addr) : object :=
  default empty_object (h !! a).

Inductive type_tag :=
  | TUndefined | TObject | TBoolean | TNumber | TBigInt | TString | TSymbol.

Definition typeof (v : value) : type_tag :=
  match v with
  | VUndefined => TUndefined
  | VNull => TObject
  | VBool _ => TBoolean
  | VNum _ => TNumber
  | VBigInt _ => TBigInt
  | VStr _ => TString
  | VSymbol _ _ => TSymbol
  | VRef _ => TObject
  end.

Definition type_tag_eqb (a b : type_tag) : bool :=
  match a, b with
  | TUndefined, TUndefined | TObject, TObject | TBoolean, TBoolean
  | TNumber, TNumber | TBigInt, TBigInt | TString, TString
  | TSymbol, TSymbol => true
  | _, _ => false
  end.

(** [ToBoolean]. *)
Definition truthy (v : value) : bool :=
  match v with
  | VUndefined | VNull => false
  | VBool b => b
  | VNum n => negb (String.eqb (num_text n) "0" || String.eqb (num_text n) "NaN")
  | VBigInt z => negb (Z.eqb z 0)
  | VStr s => negb (String.eqb s "")
  | VSymbol _ _ => true
  | VRef _ => true
  end.

(** [a === b]. *)
Definition strict_eq (a b : value) : bool :=
  match a, b with
  | VUndefined, VUndefined => true
  | VNull, VNull => true
  | VBool x, VBool y => Bool.eqb x y
  | VNum x, VNum y =>
      String.eqb (num_text x) (num_text y) && negb (String.eqb (num_text x) "NaN")
  | VBigInt x, VBigInt y => Z.eqb x y
  | VStr x, VStr y => String.eqb x y
  | VSymbol i _, VSymbol j _ => Nat.eqb i j
  | VRef x, VRef y => Nat.eqb x y
  | _, _ => false
  end.

(** [v == null], the test behind [??] and [?.]. *)
Definition nullish (v : value) : bool :=
  match v with
  | VUndefined | VNull => true
  | _ => false
  end.

(** [o.k] for a value already known to be an object. *)
Definition get (h : heap) (v : value) (k : string) : value :=
  match v with
  | VRef a => default VUndefined (props (obj_at h a) !! k)
  | _ => VUndefined
  end.

(** [k in o]. *)
Definition has (h : heap) (v : value) (k : string) : bool :=
  match v with
  | VRef a => bool_decide (is_Some (props (obj_at h a) !! k))
  | _ => false
  end.

Definition class_of (h : heap) (v : value) : option class_ :=
  match v with
  | VRef a => Some (cls (obj_at h a))
  | _ => None
  end.

Definition instanceof_Error (h : heap) (v : value) : bool :=
  match class_of h v with
  | Some (ErrorClass | TypeErrorClass | AggregateErrorClass | OtherErrorClass) => true
  | _ => false
  end.

Definition instanceof_TypeError (h : heap) (v : value) : bool :=
  match class_of h v with
  | Some TypeErrorClass => true
  | _ => false
  end.

Definition instanceof_AggregateError (h : heap) (v : value) : bool :=
  match class_of h v with
  | Some AggregateErrorClass => true
  | _ => false
  end.

(** [String(v)]: total on this value universe, symbols included. *)
Definition String_ (h : heap) (v : value) : string :=
  match v with
  | VUndefined => "undefined"
  | VNull => "null"
  | VBool true => "true"
  | VBool false => "false"
  | VNum n => num_text n
  | VBigInt z => NilZero.string_of_int (Z.to_int z)
  | VStr s => s
  | VSymbol _ d => "Symbol(" ++ d ++ ")"
  | VRef a => text (obj_at h a)
  end.

(** The abstract operation [ToString], applied by [RegExp.prototype.test]
    to its argument: as [String()] except that a symbol is refused with a
    TypeError ([None]). *)
Definition ToString (h : heap) (v : value) : option string :=
  match v with
  | VSymbol _ _ => None
  | _ => Some (String_ h v)
  end.

End JS.

(** ** Regular expressions

    The fragment of the regular-expression language that
    [RATE_LIMIT_PATTERNS] is written in: a sequence of literal characters
    and optional character classes [[..]?], with or without the [i] flag.
    None of the patterns carries the [g] or [y] flag, so [test] keeps no
    position between calls.  Strings are read as UTF-8: under [i] a
    pattern letter in ASCII matches the two ASCII cases of that letter and
    nothing else, because the canonicalisation of a non-ASCII character is
    never an ASCII one. *)

Module RegExp.

Inductive item :=
  | Chr (c : ascii)
  | OptClass (cs : list ascii).

Record regexp := RE { items : list item; ignoreCase : bool }.

Definition is_lower (c : ascii) : bool :=
  (97 <=? nat_of_ascii c)%nat && (nat_of_ascii c <=? 122)%nat.

Definition canonicalize (c : ascii) : ascii :=
  if is_lower c then ascii_of_nat (nat_of_ascii c - 32) else c.

Definition char_eq (ic : bool) (p c : ascii) : bool :=
  if ic then Ascii.eqb (canonicalize p) (canonicalize c) else Ascii.eqb p c.

(** Does the pattern match a prefix of [s]?  An optional class is tried
    greedily, then skipped. *)
Fixpoint match_here (ic : bool) (p : list item) (s : string) : bool :=
  match p with
  | [] => true
  | Chr c :: p' =>
      match s with
      | String x s' => char_eq ic c x && match_here ic p' s'
      | EmptyString => false
      end
  | OptClass cs :: p' =>
      match s with
      | String x s' => existsb (fun c => char_eq ic c x) cs && match_here ic p' s'
      | EmptyString => false
      end
      || match_here ic p' s
  end.

Fixpoint search (ic : bool) (p : list item) (s : string) : bool :=
  match_here ic p s
  || match s with
     | String _ s' => search ic p s'
     | EmptyString => false
     end.

(** [re.test(s)] *)
Definition test (re : regexp) (s : string) : bool :=
  search (ignoreCase re) (items re) s.

Fixpoint lit (s : string) : list item :=
  match s with
  | EmptyString => []
  | String c s' => Chr c :: lit s'
  end.

End RegExp.

(** ** Outcomes of a call

    A call returns, throws, or exhausts the call stack.  [fuel] bounds the
    depth of the recursion, as the stack does. *)

Inductive res (A : Type) :=
  | Ok (a : A)
  | Throw (msg : string)
  | OutOfFuel.
Arguments Ok {A} a.
Arguments Throw {A} msg.
Arguments OutOfFuel {A}.

#[global] Instance res_ret : MRet res := fun A a => Ok a.
#[global] Instance res_bind : MBind res := fun A B f m =>
  match m with
  | Ok a => f a
  | Throw msg => Throw msg
  | OutOfFuel => OutOfFuel
  end.

(** [x] is what a call gives on some stack and [y] what it gives on a
    deeper one: either the first stack was too small, or both agree. *)
Definition res_le {A : Type} (x y : res A) : Prop := x = OutOfFuel \/ x = y.

(** [arr.some(f)] for a callback that may itself fail: the members are
    visited in order and the first hit ends the visit. *)
Fixpoint some_ {A : Type} (f : A -> res bool) (l : list A) : res bool :=
  match l with
  | [] => Ok false
  | x :: l' => b ← f x; if b : bool then Ok true else some_ f l'
  end.

(** ** The classifier: src/infra/unhandled-rejections.ts *)

Module Rejections.
Import JS.

Definition FATAL_ERROR_CODES : gset string :=
  {[ "ERR_OUT_OF_MEMORY";
     "ERR_SCRIPT_EXECUTION_TIMEOUT";
     "ERR_WORKER_OUT_OF_MEMORY";
     "ERR_WORKER_UNCAUGHT_EXCEPTION";
     "ERR_WORKER_INITIALIZATION_FAILED" ]}.

Definition CONFIG_ERROR_CODES : gset string :=
  {[ "INVALID_CONFIG"; "MISSING_API_KEY"; "MISSING_CREDENTIALS" ]}.

Definition TRANSIENT_NETWORK_CODES : gset string :=
  {[ "ECONNRESET";
     "ECONNREFUSED";
     "ENOTFOUND";
     "ETIMEDOUT";
     "ESOCKETTIMEDOUT";
     "ECONNABORTED";
     "EPIPE";
     "EHOSTUNREACH";
     "ENETUNREACH";
     "EAI_AGAIN";
     "UND_ERR_CONNECT_TIMEOUT";
     "UND_ERR_DNS_RESOLVE_FAILED";
     "UND_ERR_CONNECT";
     "UND_ERR_SOCKET";
     "UND_ERR_HEADERS_TIMEOUT";
     "UND_ERR_BODY_TIMEOUT" ]}.

Definition RATE_LIMIT_PATTERNS : list RegExp.regexp :=
  let lit := RegExp.lit in
  let sep := RegExp.OptClass ["_"; " "]%char in
  [ RegExp.RE (lit "rate" ++ [sep] ++ lit "limit")%list true;
    RegExp.RE (lit "too many requests") true;
    RegExp.RE (lit "429") false;
    RegExp.RE (lit "quota") true;
    RegExp.RE (lit "resource" ++ [sep] ++ lit "exhausted")%list true;
    RegExp.RE (lit "overloaded") true ].

Definition getErrorCause (h : heap) (err : value) : value :=
  if negb (truthy err) || negb (type_tag_eqb (typeof err) TObject)
  then VUndefined
  else get h err "cause".

(** [if (code)] on a [string | undefined]. *)
Definition code_truthy (code : option string) : bool :=
  match code with
  | Some c => negb (String.eqb c "")
  | None => false
  end.

Definition isAbortError (h : heap) (err : value) : bool :=
  if negb (truthy err) || negb (type_tag_eqb (typeof err) TObject) then false
  else
    let name := if has h err "name" then String_ h (get h err "name") else "" in
    if String.eqb name "AbortError" then true
    else
      let message :=
        if has h err "message" && type_tag_eqb (typeof (get h err "message")) TString
        then String_ h (get h err "message") else "" in
      if String.eqb message "This operation was aborted" then true
      else false.

(** [err.errors?.length], as a condition. *)
Definition length_truthy (h : heap) (v : value) : bool :=
  match v with
  | VStr s => negb (String.eqb s "")
  | VRef a =>
      match elems (obj_at h a) with
      | Some l => negb (Nat.eqb (List.length l) 0)
      | None => truthy (get h v "length")
      end
  | _ => false
  end.

Definition array_elems (h : heap) (v : value) : option (list value) :=
  match v with
  | VRef a => elems (obj_at h a)
  | _ => None
  end.

Section Classifier.

(** [extractErrorCode] is imported from [./errors.js]; the predicates are
    embedded over any such function. *)
Variable extractErrorCode : heap -> value -> option string.

Definition extractErrorCodeWithCause (h : heap) (err : value) : option string :=
  let direct := extractErrorCode h err in
  if code_truthy direct then direct
  else extractErrorCode h (getErrorCause h err).

Definition isFatalError (h : heap) (err : value) : bool :=
  match extractErrorCodeWithCause h err with
  | Some code => bool_decide (code ∈ FATAL_ERROR_CODES)
  | None => false
  end.

Definition isConfigError (h : heap) (err : value) : bool :=
  match extractErrorCodeWithCause h err with
  | Some code => bool_decide (code ∈ CONFIG_ERROR_CODES)
  | None => false
  end.

Fixpoint isRateLimitError (fuel : nat) (h : heap) (err : value) : res bool :=
  match fuel with
  | O => OutOfFuel
  | S fuel' =>
    if negb (truthy err) then Ok false
    else if
      type_tag_eqb (typeof err) TObject && negb (strict_eq err VNull)
      && (let status :=
            if nullish (get h err "status") then get h err "statusCode"
            else get h err "status" in
          strict_eq status (VNum (Num "429")) || strict_eq status (VStr "429"))
    then Ok true
    else
      let message :=
        if instanceof_Error h err then get h err "message"
        else VStr (String_ h err) in
      match ToString h message with
      | None => Throw "TypeError: Cannot convert a Symbol value to a string"
      | Some m =>
        if existsb (fun pattern => RegExp.test pattern m) RATE_LIMIT_PATTERNS
        then Ok true
        else
          let cause := getErrorCause h err in
          if truthy cause && negb (strict_eq cause err)
          then isRateLimitError fuel' h cause
          else Ok false
      end
  end.

Fixpoint isTransientNetworkError (fuel : nat) (h : heap) (err : value) : res bool :=
  match fuel with
  | O => OutOfFuel
  | S fuel' =>
    if negb (truthy err) then Ok false
    else
      let code := extractErrorCodeWithCause h err in
      if code_truthy code
         && match code with
            | Some c => bool_decide (c ∈ TRANSIENT_NETWORK_CODES)
            | None => false
            end
      then Ok true
      else if instanceof_TypeError h err
              && strict_eq (get h err "message") (VStr "fetch failed")
      then
        let cause := getErrorCause h err in
        if truthy cause then isTransientNetworkError fuel' h cause
        else Ok true
      else
        let cause := getErrorCause h err in
        if truthy cause && negb (strict_eq cause err)
        then isTransientNetworkError fuel' h cause
        else if instanceof_AggregateError h err
                && length_truthy h (get h err "errors")
        then
          match array_elems h (get h err "errors") with
          | Some errors => some_ (isTransientNetworkError fuel' h) errors
          | None => Throw "TypeError: err.errors.some is not a function"
          end
        else Ok false
  end.

(** A call returns [b] when some stack is deep enough for it to. *)
Definition transient_returns (h : heap) (e : value) (b : bool) : Prop :=
  exists fuel, isTransientNetworkError fuel h e = Ok b.

End Classifier.

(** The value 429, as a number or as a string. *)
Definition is_429 (v : value) : Prop := v = VNum (Num "429") \/ v = VStr "429".

(** *** The handler registry and the process-level listener *)

(** A registered handler is a function value; the [Set] tells handlers
    apart by identity. *)
Definition hid := nat.

Inductive level := LWarn | LError.

(** What the module does to the outside: a line on the console, with its
    leading text and its second argument, or [process.exit(code)]. *)
Inductive event :=
  | ConsoleLog (lv : level) (txt : string) (arg : value)
  | ProcessExit (code : Z).

(** The part of the process the module acts on: the heap that error values
    live in, the entries of the [handlers] set, and the events so far,
    oldest first.  The set keeps its entries in insertion order; [delete]
    leaves a hole ([None]) so that a running iteration keeps its position,
    and [add] appends. *)
Record state := State {
  st_heap : heap;
  handlers : list (option hid);
  events : list event
}.

(** What a handler did when called: returned a boolean or threw. *)
Inductive hresult :=
  | HReturn (b : bool)
  | HThrow (e : value).

Definition call := (hid * hresult)%type.

Definition emit (ev : event) (st : state) : state :=
  {| st_heap := st_heap st; handlers := handlers st;
     events := (events st ++ [ev])%list |}.

Definition console_warn (txt : string) (arg : value) : state -> state :=
  emit (ConsoleLog LWarn txt arg).

Definition console_error (txt : string) (arg : value) : state -> state :=
  emit (ConsoleLog LError txt arg).

Definition process_exit (code : Z) : state -> state :=
  emit (ProcessExit code).

Definition set_has (hd : hid) (entries : list (option hid)) : bool :=
  existsb (fun e => match e with Some x => Nat.eqb x hd | None => false end) entries.

Definition set_add (hd : hid) (entries : list (option hid)) : list (option hid) :=
  if set_has hd entries then entries else (entries ++ [Some hd])%list.

Definition set_delete (hd : hid) (entries : list (option hid)) : list (option hid) :=
  map (fun e => match e with
                | Some x => if Nat.eqb x hd then None else Some x
                | None => None
                end) entries.

Definition with_handlers (f : list (option hid) -> list (option hid)) (st : state) : state :=
  {| st_heap := st_heap st; handlers := f (handlers st); events := events st |}.

(** Returns the new state and the unregistering closure. *)
Definition registerUnhandledRejectionHandler (handler : hid) (st : state)
  : state * (state -> state) :=
  (with_handlers (set_add handler) st, with_handlers (set_delete handler)).

(** The entries that an iteration started now would visit. *)
Definition live (entries : list (option hid)) : list hid := omap id entries.

(** A call that did not return [true]. *)
Definition not_true (c : call) : Prop := snd c <> HReturn true.

Section Guard.

Variable extractErrorCode : heap -> value -> option string.

(** [formatUncaughtError] is imported from [./errors.js]. *)
Variable formatUncaughtError : heap -> value -> string.

(** The code of each registered handler: called on the reason, it acts on
    the process and returns or throws. *)
Variable handler_body : hid -> value -> state -> hresult * state.

(** The second argument of [console.error] in the [catch] block. *)
Definition failure_arg (h : heap) (err : value) : value :=
  if instanceof_Error h err
  then if nullish (get h err "stack") then get h err "message" else get h err "stack"
  else err.

(** The [for .. of] loop over the set, from entry [i] on.  Besides the
    result and the state it reports the calls it made, in order. *)
Fixpoint handlers_loop (fuel : nat) (i : nat) (reason : value) (st : state)
    (calls : list call) : res (bool * list call * state) :=
  match fuel with
  | O => OutOfFuel
  | S fuel' =>
    match handlers st !! i with
    | None => Ok (false, calls, st)
    | Some None => handlers_loop fuel' (S i) reason st calls
    | Some (Some handler) =>
      match handler_body handler reason st with
      | (HReturn true, st') => Ok (true, (calls ++ [(handler, HReturn true)])%list, st')
      | (HReturn false, st') =>
          handlers_loop fuel' (S i) reason st' (calls ++ [(handler, HReturn false)])%list
      | (HThrow err, st') =>
          handlers_loop fuel' (S i) reason
            (console_error "[openclaw] Unhandled rejection handler failed:"
               (failure_arg (st_heap st') err) st')
            (calls ++ [(handler, HThrow err)])%list
      end
    end
  end.

Definition isUnhandledRejectionHandled (fuel : nat) (reason : value) (st : state)
  : res (bool * state) :=
  match handlers_loop fuel 0 reason st [] with
  | Ok (b, _, st') => Ok (b, st')
  | Throw msg => Throw msg
  | OutOfFuel => OutOfFuel
  end.

(** The listener that [installUnhandledRejectionHandler] passes to
    [process.on("unhandledRejection", ..)]. *)
Definition unhandledRejection_listener (fuel : nat) (reason : value) (st : state)
  : res state :=
  match isUnhandledRejectionHandled fuel reason st with
  | Throw msg => Throw msg
  | OutOfFuel => OutOfFuel
  | Ok (true, st) => Ok st
  | Ok (false, st) =>
    let h := st_heap st in
    let formatted := VStr (formatUncaughtError h reason) in
    if isAbortError h reason then
      Ok (console_warn "[openclaw] Suppressed AbortError:" formatted st)
    else if isFatalError extractErrorCode h reason then
      Ok (process_exit 1
            (console_error "[openclaw] FATAL unhandled rejection:" formatted st))
    else if isConfigError extractErrorCode h reason then
      Ok (process_exit 1
            (console_error "[openclaw] CONFIGURATION ERROR - requires fix:" formatted st))
    else
      transient ← isTransientNetworkError extractErrorCode fuel h reason;
      if transient : bool then
        Ok (console_warn "[openclaw] Non-fatal unhandled rejection (continuing):"
              formatted st)
      else
        limited ← isRateLimitError fuel h reason;
        if limited : bool then
          Ok (console_warn
                "[openclaw] Rate limit error (continuing, fallback should handle):"
                formatted st)
        else
          Ok (process_exit 1
                (console_error "[openclaw] Unhandled promise rejection:" formatted st))
  end.

(** No handler of the registry registers or unregisters anything while it
    runs on [reason]. *)
Definition registry_kept (reason : value) (entries : list (option hid)) : Prop :=
  forall hd st, In (Some hd) entries ->
    handlers (snd (handler_body hd reason st)) = handlers st.

(** What one run of the loop over the entries [rest] amounts to. *)
Definition run_ok (rest : list (option hid)) (b : bool) (new : list call) : Prop :=
  (exists later, live rest = (map fst new ++ later)%list)
  /\ (b = true ->
      exists before hd, new = (before ++ [(hd, HReturn true)])%list
                        /\ Forall not_true before)
  /\ (b = false -> map fst new = live rest /\ Forall not_true new).

(** [process.on("unhandledRejection", listener)]: the process calls the
    listener on every rejection that nothing handles. *)
Definition installUnhandledRejectionHandler
  : nat -> value -> state -> res state := unhandledRejection_listener.

End Guard.

End Rejections.

(** ** Collaborators that the sources at hand only import *)

Module Collaborators.
Import JS Rejections.

(** Modelled from the spec: [extractErrorCode] of [./errors.js], which the
    classifier imports and whose source is not part of the files at hand.
    The spec speaks of "a [code] present on [e]": the [code] property of
    an object, when it holds a string. *)
Definition extractErrorCode (h : heap) (err : value) : option string :=
  if negb (truthy err) || negb (type_tag_eqb (typeof err) TObject) then None
  else match get h err "code" with
       | VStr code => Some code
       | _ => None
       end.

(** Modelled from the spec: [formatUncaughtError] of [./errors.js], not
    part of the files at hand.  The spec has each log line include "the
    formatted error (message plus stack when available)". *)
Definition formatUncaughtError (h : heap) (err : value) : string :=
  if instanceof_Error h err
  then if nullish (get h err "stack") then String_ h (get h err "message")
       else String_ h (get h err "stack")
  else String_ h err.

End Collaborators.

(** ** The fallback orchestrator *)

Module Fallback.
Import JS Rejections.

Record target := Target { provider : string; model : string }.

Inductive RetryReason := RateLimit | TransientNetwork | Other.

Record AttemptRecord := Attempt {
  attempt_target : target;
  attempt_reason : RetryReason;
  attempt_message : string
}.

(** What the unit of work did on one target. *)
Inductive work_result (R : Type) :=
  | Success (r : R)
  | Failure (e : value).
Arguments Success {R} r.
Arguments Failure {R} e.

Inductive FallbackResult (R : Type) :=
  | Completed (result : R) (attempts : list AttemptRecord)
  | Reraised (e : value)
  | AllFailed (message : string) (attempts : list AttemptRecord) (final : value)
  | EmptyChain.
Arguments Completed {R} result attempts.
Arguments Reraised {R} e.
Arguments AllFailed {R} message attempts final.
Arguments EmptyChain {R}.

Section Orchestrator.

Variable extractErrorCode : heap -> value -> option string.

(** The caller's unit of work acts on a world [W] of its own, in which the
    errors it raises live. *)
Context {R W : Type}.
Variable world_heap : W -> heap.
Variable doWork : target -> W -> work_result R * W.

(** The text an [AttemptRecord] keeps of an error. *)
Variable error_message : heap -> value -> string.

(** Modelled from the spec: the classification step of
    [runWithModelFallback] ([src/agents/model-fallback.ts], of which only
    the test file is at hand): "classify the error as RateLimit (via
    isRateLimit) or TransientNetwork (via isTransientNetwork) or Other". *)
Definition classify (fuel : nat) (h : heap) (e : value) : res RetryReason :=
  limited ← isRateLimitError fuel h e;
  if limited : bool then Ok RateLimit
  else
    transient ← isTransientNetworkError extractErrorCode fuel h e;
    if transient : bool then Ok TransientNetwork else Ok Other.

Definition retryable (r : RetryReason) : bool :=
  match r with
  | RateLimit | TransientNetwork => true
  | Other => false
  end.

(** Modelled from the spec: the loop of [runWithModelFallback] over the
    targets that remain, section 4.3: success returns the result with the
    records gathered so far; a failure classified [Other] is raised again
    as it is; a retryable failure is recorded and the next target tried;
    when none remains the terminal failure carries every record.
    [n] is the length of the whole chain and [calls] lists the targets
    that [doWork] was invoked on. *)
Fixpoint attempt_chain (fuel : nat) (n : nat) (chain : list target)
    (attempts : list AttemptRecord) (calls : list target) (w : W)
  : res (FallbackResult R * list target * W) :=
  match chain with
  | [] => Ok (EmptyChain, calls, w)
  | t :: rest =>
    match doWork t w with
    | (Success r, w') => Ok (Completed r attempts, (calls ++ [t])%list, w')
    | (Failure e, w') =>
      reason ← classify fuel (world_heap w') e;
      if retryable reason then
        let attempts' :=
          (attempts ++ [Attempt t reason (error_message (world_heap w') e)])%list in
        match rest with
        | [] =>
            Ok (AllFailed ("All models failed (" ++
                             NilZero.string_of_uint (Nat.to_uint n) ++ ")")
                  attempts' e,
                (calls ++ [t])%list, w')
        | _ :: _ => attempt_chain fuel n rest attempts' (calls ++ [t])%list w'
        end
      else Ok (Reraised e, (calls ++ [t])%list, w')
    end
  end.

(** Modelled from the spec: [runWithModelFallback], section 4.3, on a
    chain already resolved from the configuration; an empty chain is
    refused before any attempt (section 3). *)
Definition runWithModelFallback (fuel : nat) (chain : list target) (w : W)
  : res (FallbackResult R * list target * W) :=
  attempt_chain fuel (List.length chain) chain [] [] w.

(** [doWork] fails on each target of the list in turn, every time with an
    error classified as rate limit or transient network; the records are
    those of the failures and the last world is where the next attempt
    starts. *)
Inductive fails_retryably (fuel : nat)
  : list target -> W -> list AttemptRecord -> W -> Prop :=
  | fails_nil w : fails_retryably fuel [] w [] w
  | fails_cons t ts w w1 e reason records w2 :
      doWork t w = (Failure e, w1) ->
      classify fuel (world_heap w1) e = Ok reason ->
      retryable reason = true ->
      fails_retryably fuel ts w1 records w2 ->
      fails_retryably fuel (t :: ts) w
        (Attempt t reason (error_message (world_heap w1) e) :: records) w2.

End Orchestrator.

End Fallback.

(** ** The priority order of the top-level policy, as the spec words it *)

Module Policy.
Import JS Rejections.

Inductive Classification :=
  | Abort | Fatal | Config | TransientNetwork | RateLimit | Unclassified.

Section Priority.

Variable extractErrorCode : heap -> value -> option string.

(** The first classification that matches, in the order Abort, Fatal,
    Config, TransientNetwork, RateLimit, and Unclassified when none
    does. *)
Definition first_matching (fuel : nat) (h : heap) (reason : value)
  : res Classification :=
  if isAbortError h reason then Ok Abort
  else if isFatalError extractErrorCode h reason then Ok Fatal
  else if isConfigError extractErrorCode h reason then Ok Config
  else
    transient ← isTransientNetworkError extractErrorCode fuel h reason;
    if transient : bool then Ok TransientNetwork
    else
      limited ← isRateLimitError fuel h reason;
      if limited : bool then Ok RateLimit else Ok Unclassified.

End Priority.

(** The outcomes on which the process exits with code 1. *)
Definition terminates (c : Classification) : bool :=
  match c with
  | Fatal | Config | Unclassified => true
  | Abort | TransientNetwork | RateLimit => false
  end.

(** Warning level for the outcomes that continue, error level for the
    others. *)
Definition log_level (c : Classification) : level :=
  if terminates c then LError else LWarn.

Definition log_text (c : Classification) : string :=
  match c with
  | Abort => "[openclaw] Suppressed AbortError:"
  | Fatal => "[openclaw] FATAL unhandled rejection:"
  | Config => "[openclaw] CONFIGURATION ERROR - requires fix:"
  | TransientNetwork => "[openclaw] Non-fatal unhandled rejection (continuing):"
  | RateLimit => "[openclaw] Rate limit error (continuing, fallback should handle):"
  | Unclassified => "[openclaw] Unhandled promise rejection:"
  end.

(** What the policy does on a classification: one log line, then the
    exit when the classification terminates. *)
Definition verdict (c : Classification) (formatted : value) : list event :=
  ConsoleLog (log_level c) (log_text c) formatted
  :: (if terminates c then [ProcessExit 1] else []).

Section Verdict.

Variable formatUncaughtError : heap -> value -> string.

(** The state after the policy acted on classification [c]. *)
Definition after_verdict (c : Classification) (reason : value) (st : state) : state :=
  {| st_heap := st_heap st; handlers := handlers st;
     events := (events st
                ++ verdict c (VStr (formatUncaughtError (st_heap st) reason)))%list |}.

End Verdict.

End Policy.

(** ** Sample heaps *)

Module Examples.
Import JS Rejections.

(** [Error.prototype.toString] *)
Definition error_text (name message : string) : string :=
  if String.eqb message "" then name else name ++ ": " ++ message.

(** [Object.assign(new C(message), own)], where [name] is the name on the
    prototype of [C]. *)
Definition new_error (c : class_) (name message : string)
    (own : list (string * value)) : object :=
  {| cls := c;
     props := list_to_map (own ++ [("name", VStr name); ("message", VStr message)])%list;
     elems := None;
     text := error_text name message |}.

Definition new_array (l : list value) (joined : string) : object :=
  {| cls := PlainObject; props := ∅; elems := Some l; text := joined |}.

Definition n429 : value := VNum (Num "429").
Definition n500 : value := VNum (Num "500").

(** 1: [new Error("Request was aborted")];
    2: [new Error("This operation was aborted")];
    3: an error named "AbortError" that carries a fatal code. *)
Definition abort_heap : heap :=
  list_to_map
    [ (1, new_error ErrorClass "Error" "Request was aborted" []);
      (2, new_error ErrorClass "Error" "This operation was aborted" []);
      (3, new_error ErrorClass "AbortError" "aborted"
            [("code", VStr "ERR_OUT_OF_MEMORY")]) ].

(** 1: [Object.assign(new Error("Server Error"), {status: 500, statusCode: 429})];
    2: [Object.assign(new Error("Busy"), {statusCode: 429})]. *)
Definition status_heap : heap :=
  list_to_map
    [ (1, new_error ErrorClass "Error" "Server Error"
            [("status", n500); ("statusCode", n429)]);
      (2, new_error ErrorClass "Error" "Busy" [("statusCode", n429)]) ].

(** 1: an error with a code of its own, caused by 2;
    2: an out-of-memory error;
    3: an error without a code, caused by 2. *)
Definition fatal_heap : heap :=
  list_to_map
    [ (1, new_error ErrorClass "Error" "wrapper"
            [("code", VStr "E_CUSTOM"); ("cause", VRef 2)]);
      (2, new_error ErrorClass "Error" "out of memory"
            [("code", VStr "ERR_OUT_OF_MEMORY")]);
      (3, new_error ErrorClass "Error" "wrapper" [("cause", VRef 2)]) ].

(** 1: [const e = new TypeError("fetch failed"); e.cause = e]. *)
Definition self_cycle_heap : heap :=
  list_to_map
    [ (1, new_error TypeErrorClass "TypeError" "fetch failed" [("cause", VRef 1)]) ].

(** 1: [const e = new Error("boom"); e.cause = e]. *)
Definition self_cause_heap : heap :=
  list_to_map
    [ (1, new_error ErrorClass "Error" "boom" [("cause", VRef 1)]) ].

(** 1 and 2: [a.cause = b; b.cause = a]. *)
Definition two_cycle_heap : heap :=
  list_to_map
    [ (1, new_error ErrorClass "Error" "first" [("cause", VRef 2)]);
      (2, new_error ErrorClass "Error" "second" [("cause", VRef 1)]) ].

(** 1: [Object.assign(new AggregateError([e3], "Multiple errors"), {code: "ECONNRESET"})];
    3: [new Error("regular error")];
    4: [new AggregateError([e3, e6], "Multiple errors")];
    6: [Object.assign(new Error("timeout"), {code: "ETIMEDOUT"})]. *)
Definition aggregate_heap : heap :=
  list_to_map
    [ (1, new_error AggregateErrorClass "AggregateError" "Multiple errors"
            [("errors", VRef 2); ("code", VStr "ECONNRESET")]);
      (2, new_array [VRef 3] "Error: regular error");
      (3, new_error ErrorClass "Error" "regular error" []);
      (4, new_error AggregateErrorClass "AggregateError" "Multiple errors"
            [("errors", VRef 5)]);
      (5, new_array [VRef 3; VRef 6] "Error: regular error,Error: timeout");
      (6, new_error ErrorClass "Error" "timeout" [("code", VStr "ETIMEDOUT")]) ].

(** Three handlers: the first throws, the second claims the rejection,
    the third declines. *)
Definition sample_handler_body (handler : hid) (reason : value) (st : state)
  : hresult * state :=
  match handler with
  | 1 => (HThrow (VStr "handler failed"), st)
  | 2 => (HReturn true, st)
  | _ => (HReturn false, st)
  end.

(** A process with the sample abort errors and no handler. *)
Definition bare_process : state :=
  {| st_heap := abort_heap; handlers := []; events := [] |}.

(** The same after [register(h1); register(h2); register(h3)]. *)
Definition three_handlers : state :=
  fst (registerUnhandledRejectionHandler 3
         (fst (registerUnhandledRejectionHandler 2
                 (fst (registerUnhandledRejectionHandler 1 bare_process))))).

(** The chain of the tests: a primary and two fallbacks. *)
Definition primary : Fallback.target :=
  Fallback.Target "anthropic" "claude-opus-4-5".
Definition fallback1 : Fallback.target :=
  Fallback.Target "openrouter" "anthropic/claude-sonnet-4".
Definition fallback2 : Fallback.target :=
  Fallback.Target "lucablaq-studio-ollama" "qwen3:32b".

(** A unit of work that plays a script, as the mocks of the tests do: the
    world is the number of calls made so far. *)
Definition scripted (script : list (Fallback.work_result string))
    (t : Fallback.target) (n : nat) : Fallback.work_result string * nat :=
  (nth n script (Fallback.Failure VUndefined), S n).

(** 1: [Object.assign(new Error("Too Many Requests"), {status: 429})];
    2: [new Error("Something went wrong")]. *)
Definition work_heap : heap :=
  list_to_map
    [ (1, new_error ErrorClass "Error" "Too Many Requests" [("status", n429)]);
      (2, new_error ErrorClass "Error" "Something went wrong" []) ].

End Examples.

(** ** Notions used to state further properties *)

Module Notions.
Import JS Rejections.

(** *** Texts *)

(** [s] is [p] letter for letter, up to case when [ic] is set. *)
Fixpoint same_text (ic : bool) (p s : string) : bool :=
  match p, s with
  | EmptyString, EmptyString => true
  | String c p', String x s' => RegExp.char_eq ic c x && same_text ic p' s'
  | _, _ => false
  end.

(** [s] has a stretch that reads [p]. *)
Definition contains (ic : bool) (s p : string) : Prop :=
  exists pre mid post, s = pre ++ mid ++ post /\ same_text ic p mid = true.

(** The texts a pattern can match in full: an optional class is left out
    or gives one of its characters. *)
Fixpoint expansions (p : list RegExp.item) : list string :=
  match p with
  | [] => [EmptyString]
  | RegExp.Chr c :: p' => map (String c) (expansions p')
  | RegExp.OptClass cs :: p' =>
      (expansions p' ++ flat_map (fun c => map (String c) (expansions p')) cs)%list
  end.

(** The wordings that [RATE_LIMIT_PATTERNS] looks for, each with its
    case flag. *)
Definition RATE_LIMIT_PHRASES : list (bool * string) :=
  [ (true, "ratelimit"); (true, "rate_limit"); (true, "rate limit");
    (true, "too many requests");
    (false, "429");
    (true, "quota");
    (true, "resourceexhausted"); (true, "resource_exhausted");
    (true, "resource exhausted");
    (true, "overloaded") ].

Definition mentions_rate_limit (m : string) : Prop :=
  exists ic p, In (ic, p) RATE_LIMIT_PHRASES /\ contains ic m p.

(** *** Cause chains *)

(** [e'] is met when following, from [e], the causes that the recursive
    predicates follow: present and distinct from the error they belong
    to. *)
Inductive reaches (h : heap) : value -> value -> Prop :=
  | reaches_here e : reaches h e e
  | reaches_cause e e' :
      truthy (getErrorCause h e) = true ->
      strict_eq (getErrorCause h e) e = false ->
      reaches h (getErrorCause h e) e' ->
      reaches h e e'.

(** Every cause other than the error itself has a smaller rank: the cause
    chains of the heap end, self-causes apart. *)
Definition causes_ranked (h : heap) (rank : addr -> nat) : Prop :=
  forall a c, get h (VRef a) "cause" = VRef c -> c <> a -> rank c < rank a.

(** The members of an aggregate error have a smaller rank. *)
Definition members_ranked (h : heap) (rank : addr -> nat) : Prop :=
  forall a l m,
    array_elems h (get h (VRef a) "errors") = Some l ->
    In (VRef m) l -> rank m < rank a.

(** The test of the "fetch failed" branch. *)
Definition is_fetch_failed (h : heap) (v : value) : bool :=
  instanceof_TypeError h v && strict_eq (get h v "message") (VStr "fetch failed").

(** No "fetch failed" TypeError is its own cause. *)
Definition no_fetch_failed_self_cause (h : heap) : Prop :=
  forall a, is_fetch_failed h (VRef a) = true -> get h (VRef a) "cause" <> VRef a.

(** A stack deep enough for a value of the given rank. *)
Definition stack_for (rank : addr -> nat) (v : value) : nat :=
  match v with
  | VRef a => 2 + rank a
  | _ => 1
  end.

(** *** The tests that the recursive predicates make on the error itself *)

(** The status test of [isRateLimitError]. *)
Definition status_is_429 (h : heap) (err : value) : bool :=
  type_tag_eqb (typeof err) TObject && negb (strict_eq err VNull)
  && (let status :=
        if nullish (get h err "status") then get h err "statusCode"
        else get h err "status" in
      strict_eq status (VNum (Num "429")) || strict_eq status (VStr "429")).

(** What [isRateLimitError] matches the patterns against. *)
Definition message_of (h : heap) (err : value) : value :=
  if instanceof_Error h err then get h err "message" else VStr (String_ h err).

Definition rate_limit_returns (h : heap) (e : value) (b : bool) : Prop :=
  exists fuel, isRateLimitError fuel h e = Ok b.

Section CodeTest.

Variable extractErrorCode : heap -> value -> option string.

(** The code test of [isTransientNetworkError]. *)
Definition has_transient_code (h : heap) (err : value) : bool :=
  let code := extractErrorCodeWithCause extractErrorCode h err in
  code_truthy code
  && match code with
     | Some c => bool_decide (c ∈ TRANSIENT_NETWORK_CODES)
     | None => false
     end.

End CodeTest.

(** *** Histories of the registry *)

Inductive registry_op :=
  | Register (handler : hid)
  | Unregister (handler : hid).

(** [Unregister] is the closure that a [Register] of the same handler
    returned. *)
Definition registry_step (st : state) (op : registry_op) : state :=
  match op with
  | Register handler => fst (registerUnhandledRejectionHandler handler st)
  | Unregister handler => snd (registerUnhandledRejectionHandler handler st) st
  end.

Definition registry_after (ops : list registry_op) (st : state) : state :=
  fold_left registry_step ops st.

(** *** A run over the handlers, sentence by sentence

    [visits reason hs st b calls st'] reads: called in turn on [reason],
    starting in [st], the handlers [hs] gave the answer [b] through the
    calls [calls] and left the process in [st'].  No handler left: the
    answer is [false].  The next handler returns [true]: the answer is
    [true] and no later handler is called.  It returns [false]: the run
    goes on with the later handlers.  It throws: the failure is written
    with [console.error] and the run goes on as if it had returned
    [false]. *)

Section Visits.

Variable handler_body : hid -> value -> state -> hresult * state.

Inductive visits (reason : value)
  : list hid -> state -> bool -> list call -> state -> Prop :=
  | visits_none st :
      visits reason [] st false [] st
  | visits_true handler later st st1 :
      handler_body handler reason st = (HReturn true, st1) ->
      visits reason (handler :: later) st true [(handler, HReturn true)] st1
  | visits_false handler later st st1 b calls st' :
      handler_body handler reason st = (HReturn false, st1) ->
      visits reason later st1 b calls st' ->
      visits reason (handler :: later) st b ((handler, HReturn false) :: calls) st'
  | visits_throw handler later st st1 err b calls st' :
      handler_body handler reason st = (HThrow err, st1) ->
      visits reason later
        (console_error "[openclaw] Unhandled rejection handler failed:"
           (failure_arg (st_heap st1) err) st1)
        b calls st' ->
      visits reason (handler :: later) st b ((handler, HThrow err) :: calls) st'.

(** No handler changes the heap while it runs on [reason]. *)
Definition heap_kept (reason : value) : Prop :=
  forall handler st, st_heap (snd (handler_body handler reason st)) = st_heap st.

(** No handler writes to the console or exits while it runs on [reason]. *)
Definition events_kept (reason : value) : Prop :=
  forall handler st, events (snd (handler_body handler reason st)) = events st.

End Visits.

(** The calls of a run that threw. *)
Definition is_throw (c : call) : bool :=
  match snd c with
  | HThrow _ => true
  | HReturn _ => false
  end.

(** The console line of a call that threw. *)
Definition logs_failure (line : event) (c : call) : Prop :=
  exists h err,
    snd c = HThrow err
    /\ line = ConsoleLog LError "[openclaw] Unhandled rejection handler failed:"
                (failure_arg h err).

(** *** Well-formed errors *)

(** No Error of the heap has a symbol for message. *)
Definition messages_convert (h : heap) : Prop :=
  forall a, instanceof_Error h (VRef a) = true ->
            typeof (get h (VRef a) "message") <> TSymbol.

(** An [errors] with a length is an array, on every aggregate error. *)
Definition members_are_arrays (h : heap) : Prop :=
  forall a, cls (obj_at h a) = AggregateErrorClass ->
            length_truthy h (get h (VRef a) "errors") = true ->
            array_elems h (get h (VRef a) "errors") <> None.

Section WellFormed.

Variable handler_body : hid -> value -> state -> hresult * state.

(** The conditions under which the listener is sure to return: the
    handlers leave registry and heap alone, the cause chains and the
    aggregate errors of the heap end, its errors are well formed, and the
    stack is deep enough for the registry and for the reason. *)
Definition well_formed_rejection (rank : addr -> nat) (fuel : nat)
    (reason : value) (st : state) : Prop :=
  registry_kept handler_body reason (handlers st)
  /\ heap_kept handler_body reason
  /\ causes_ranked (st_heap st) rank
  /\ members_ranked (st_heap st) rank
  /\ no_fetch_failed_self_cause (st_heap st)
  /\ messages_convert (st_heap st)
  /\ members_are_arrays (st_heap st)
  /\ List.length (handlers st) < fuel
  /\ stack_for rank reason <= fuel.

End WellFormed.

End Notions.

(** ** More sample data *)

Module MoreExamples.
Import JS Rejections Notions Examples.

(** 1: [new TypeError("fetch failed", {cause: e2})];
    2: [new Error("wrapper", {cause: e3})];
    3: [Object.assign(new Error("inner wrapper", {cause: e4}), {code: "E_CUSTOM"})];
    4: [Object.assign(new Error("connection reset"), {code: "ECONNRESET"})];
    5: [new TypeError("fetch failed")]. *)
Definition deep_heap : heap :=
  list_to_map
    [ (1, new_error TypeErrorClass "TypeError" "fetch failed" [("cause", VRef 2)]);
      (2, new_error ErrorClass "Error" "wrapper" [("cause", VRef 3)]);
      (3, new_error ErrorClass "Error" "inner wrapper"
            [("code", VStr "E_CUSTOM"); ("cause", VRef 4)]);
      (4, new_error ErrorClass "Error" "connection reset"
            [("code", VStr "ECONNRESET")]);
      (5, new_error TypeErrorClass "TypeError" "fetch failed" []) ].

(** The length of the cause chain below each error of [deep_heap]. *)
Definition deep_rank (a : addr) : nat :=
  match a with
  | 1 => 3
  | 2 => 2
  | 3 => 1
  | _ => 0
  end.

(** 1: [new Error("You have exceeded your current Quota")];
    2: [new Error("Request failed", {cause: e1})]. *)
Definition limit_heap : heap :=
  list_to_map
    [ (1, new_error ErrorClass "Error" "You have exceeded your current Quota" []);
      (2, new_error ErrorClass "Error" "Request failed" [("cause", VRef 1)]) ].

(** 1: an AggregateError whose [errors] was overwritten with the string "abc";
    2: [new AggregateError([], "none")], 3 its empty array;
    4: an Error whose [message] was overwritten with a symbol. *)
Definition odd_heap : heap :=
  list_to_map
    [ (1, new_error AggregateErrorClass "AggregateError" "odd" [("errors", VStr "abc")]);
      (2, new_error AggregateErrorClass "AggregateError" "none" [("errors", VRef 3)]);
      (3, new_array [] "");
      (4, new_error ErrorClass "Error" "" [("message", VSymbol 1 "oops")]) ].

(** 1: [new Error("rate limit exceeded")], 2: [new Error("second")], with
    [e1.cause = e2; e2.cause = e1]. *)
Definition limit_cycle_heap : heap :=
  list_to_map
    [ (1, new_error ErrorClass "Error" "rate limit exceeded" [("cause", VRef 2)]);
      (2, new_error ErrorClass "Error" "second" [("cause", VRef 1)]) ].

(** A process with these two errors and no handler. *)
Definition cycle_process : state :=
  {| st_heap := limit_cycle_heap; handlers := []; events := [] |}.

(** A process with the errors of [deep_heap], where the throwing handler
    and the declining handler of the samples are registered. *)
Definition deep_process : state :=
  {| st_heap := deep_heap; handlers := [Some 1; Some 3]; events := [] |}.

(** Handlers coming and going. *)
Definition history : list registry_op :=
  [ Register 1; Register 2; Register 1; Unregister 2; Register 3; Register 2 ].

End MoreExamples.

(** * Properties *)

Import JS Rejections.

(** ** Reading properties *)

Lemma has_false_get h v k : has h v k = false -> get h v k = VUndefined.
Proof.
  destruct v; simpl; try reflexivity.
  intros H. apply bool_decide_eq_false in H.
  destruct (props (obj_at h a) !! k) eqn:E; [|reflexivity].
  exfalso. apply H. eauto.
Qed.

(** ** isAbortError *)

(** The name that [isAbortError] compares: [String(e.name)] when the
    property is there, the empty string otherwise. *)
Lemma abort_name_test h v :
  String.eqb (if has h v "name" then String_ h (get h v "name") else "") "AbortError"
  = String.eqb (String_ h (get h v "name")) "AbortError".
Proof.
  destruct (has h v "name") eqn:E; [reflexivity|].
  rewrite (has_false_get _ _ _ E). reflexivity.
Qed.

Lemma abort_message_test h v :
  String.eqb
    (if has h v "message" && type_tag_eqb (typeof (get h v "message")) TString
     then String_ h (get h v "message") else "")
    "This operation was aborted"
  = strict_eq (get h v "message") (VStr "This operation was aborted").
Proof.
  destruct (has h v "message") eqn:E.
  - destruct (get h v "message"); reflexivity.
  - rewrite (has_false_get _ _ _ E). reflexivity.
Qed.

Lemma strict_eq_VStr v s : strict_eq v (VStr s) = true <-> v = VStr s.
Proof.
  destruct v; simpl; try (split; [discriminate | congruence]).
  rewrite String.eqb_eq. split; congruence.
Qed.

Lemma isAbortError_object h a :
  isAbortError h (VRef a)
  = String.eqb (String_ h (get h (VRef a) "name")) "AbortError"
    || strict_eq (get h (VRef a) "message") (VStr "This operation was aborted").
Proof.
  unfold isAbortError. cbn [truthy typeof type_tag_eqb negb orb].
  rewrite abort_name_test, abort_message_test.
  destruct (String.eqb _ "AbortError"); [reflexivity|].
  destruct (strict_eq _ _); reflexivity.
Qed.

(** C5: on an object [e], [isAbortError] holds exactly when [e.name] reads
    "AbortError" or [e.message] is the string "This operation was
    aborted"; with another name, the near-miss messages "aborted",
    "Operation aborted" and "Request was aborted" are refused. *)
Theorem isAbortError_iff (h : heap) (a : addr) :
  let e := VRef a in
  (isAbortError h e = true <->
     String_ h (get h e "name") = "AbortError"
     \/ get h e "message" = VStr "This operation was aborted")
  /\ (String_ h (get h e "name") <> "AbortError" ->
      forall m, In m ["aborted"; "Operation aborted"; "Request was aborted"] ->
      get h e "message" = VStr m -> isAbortError h e = false).
Proof.
  intros e. subst e. split.
  - rewrite isAbortError_object, orb_true_iff, String.eqb_eq, strict_eq_VStr.
    reflexivity.
  - intros Hname m Hm Hmsg. rewrite isAbortError_object, Hmsg.
    apply String.eqb_neq in Hname. rewrite Hname. simpl.
    destruct Hm as [<-|[<-|[<-|[]]]]; reflexivity.
Qed.

(** C10: a value that is no object (undefined, null, a boolean, a number,
    a bigint, a symbol or any string) is never an abort error. *)
Theorem isAbortError_non_object (h : heap) (v : value) :
  (forall a, v <> VRef a) -> isAbortError h v = false.
Proof.
  intros Hv. unfold isAbortError.
  destruct v; cbn [truthy typeof type_tag_eqb negb];
    try reflexivity; try (rewrite orb_true_r; reflexivity).
  exfalso. apply (Hv a). reflexivity.
Qed.

(** ** isFatalError *)

Lemma FATAL_ERROR_CODES_members code :
  code ∈ FATAL_ERROR_CODES <->
  In code [ "ERR_OUT_OF_MEMORY"; "ERR_SCRIPT_EXECUTION_TIMEOUT";
            "ERR_WORKER_OUT_OF_MEMORY"; "ERR_WORKER_UNCAUGHT_EXCEPTION";
            "ERR_WORKER_INITIALIZATION_FAILED" ].
Proof.
  unfold FATAL_ERROR_CODES. rewrite !elem_of_union, !elem_of_singleton.
  simpl. intuition congruence.
Qed.

Lemma code_truthy_false code :
  code_truthy code = false <-> code = None \/ code = Some "".
Proof.
  destruct code as [c|]; simpl.
  - rewrite negb_false_iff, String.eqb_eq. split.
    + intros ->. now right.
    + intros [H|H]; congruence.
  - split; [now left | reflexivity].
Qed.

Section ClassifierFacts.

Variable extractErrorCode : heap -> value -> option string.

Abbreviation extractErrorCodeWithCause := (extractErrorCodeWithCause extractErrorCode).
Abbreviation isFatalError := (isFatalError extractErrorCode).
Abbreviation isTransientNetworkError := (isTransientNetworkError extractErrorCode).
Abbreviation transient_returns := (transient_returns extractErrorCode).

(** The lookup prefers the error's own code and turns to the cause, one
    level down, only when the error has none. *)
Lemma extractErrorCodeWithCause_spec h e code :
  extractErrorCodeWithCause h e = Some code /\ code <> "" <->
  code <> "" /\
  (extractErrorCode h e = Some code
   \/ ((extractErrorCode h e = None \/ extractErrorCode h e = Some "")
       /\ extractErrorCode h (getErrorCause h e) = Some code)).
Proof.
  unfold Rejections.extractErrorCodeWithCause.
  destruct (code_truthy (extractErrorCode h e)) eqn:E.
  - split.
    + intros [H Hne]. auto.
    + intros [Hne [H|[H _]]]; [auto|].
      apply code_truthy_false in H. congruence.
  - apply code_truthy_false in E. split.
    + intros [H Hne]. auto.
    + intros [Hne [H|[_ H]]]; [|auto].
      destruct E as [E|E]; congruence.
Qed.

(** C6, as the code has it: [isFatalError] holds exactly when the code
    that the lookup selects is one of the five fatal codes, where the
    lookup selects the code of [e] itself when [e] carries one, and the
    code of [e.cause] (one level down, no further) only when [e] carries
    none. *)
Theorem isFatalError_iff (h : heap) (e : value) :
  isFatalError h e = true <->
  exists code,
    In code [ "ERR_OUT_OF_MEMORY"; "ERR_SCRIPT_EXECUTION_TIMEOUT";
              "ERR_WORKER_OUT_OF_MEMORY"; "ERR_WORKER_UNCAUGHT_EXCEPTION";
              "ERR_WORKER_INITIALIZATION_FAILED" ]
    /\ (extractErrorCode h e = Some code
        \/ ((extractErrorCode h e = None \/ extractErrorCode h e = Some "")
            /\ extractErrorCode h (getErrorCause h e) = Some code)).
Proof.
  assert (Hne : forall code, code ∈ FATAL_ERROR_CODES -> code <> "").
  { intros code H ->. apply FATAL_ERROR_CODES_members in H.
    simpl in H. intuition discriminate. }
  unfold Rejections.isFatalError. split.
  - destruct (extractErrorCodeWithCause h e) as [code|] eqn:E; [|discriminate].
    intros H. apply bool_decide_eq_true in H. exists code. split.
    + now apply FATAL_ERROR_CODES_members.
    + apply (extractErrorCodeWithCause_spec h e code). auto.
  - intros (code & Hin & H). apply FATAL_ERROR_CODES_members in Hin.
    destruct (proj2 (extractErrorCodeWithCause_spec h e code)) as [-> _]; [auto|].
    now apply bool_decide_eq_true.
Qed.

(** ** Fuel

    More stack never changes what a call does once it returned or threw. *)

Lemma res_le_refl {A : Type} (x : res A) : res_le x x.
Proof. now right. Qed.

Lemma res_le_Ok {A : Type} (a : A) (y : res A) : res_le (Ok a) y -> y = Ok a.
Proof. intros [H|H]; [discriminate | now symmetry]. Qed.

Lemma some_mono {A : Type} (f g : A -> res bool) (l : list A) :
  (forall x, In x l -> res_le (f x) (g x)) -> res_le (some_ f l) (some_ g l).
Proof.
  induction l as [|x l IH]; intros H; simpl.
  - apply res_le_refl.
  - destruct (H x (or_introl eq_refl)) as [E|E].
    + rewrite E. now left.
    + rewrite <- E. destruct (f x) as [[|]| |]; simpl; try apply res_le_refl.
      apply IH. intros y Hy. apply H. now right.
Qed.

Lemma isRateLimitError_mono fuel fuel' h e :
  fuel <= fuel' -> res_le (isRateLimitError fuel h e) (isRateLimitError fuel' h e).
Proof.
  revert fuel' e. induction fuel as [|fuel IH]; intros fuel' e Hle.
  - now left.
  - destruct fuel' as [|fuel']; [lia|]. cbn [isRateLimitError].
    destruct (negb (truthy e)); [apply res_le_refl|].
    match goal with |- context [if ?c then Ok true else _] => destruct c end;
      [apply res_le_refl|].
    destruct (ToString h _); [|apply res_le_refl].
    destruct (existsb _ _); [apply res_le_refl|].
    destruct (truthy _ && _); [|apply res_le_refl].
    apply IH. lia.
Qed.

Lemma isTransientNetworkError_mono fuel fuel' h e :
  fuel <= fuel' ->
  res_le (isTransientNetworkError fuel h e) (isTransientNetworkError fuel' h e).
Proof.
  revert fuel' e. induction fuel as [|fuel IH]; intros fuel' e Hle.
  - now left.
  - destruct fuel' as [|fuel']; [lia|]. cbn [Rejections.isTransientNetworkError].
    destruct (negb (truthy e)); [apply res_le_refl|].
    match goal with |- context [if ?c then Ok true else _] => destruct c end;
      [apply res_le_refl|].
    destruct (instanceof_TypeError h e && _).
    { destruct (truthy _); [|apply res_le_refl]. apply IH. lia. }
    destruct (truthy _ && _); [apply IH; lia|].
    destruct (instanceof_AggregateError h e && _); [|apply res_le_refl].
    destruct (array_elems h _); [|apply res_le_refl].
    apply some_mono. intros x _. apply IH. lia.
Qed.

Lemma transient_returns_unique h e b b' :
  transient_returns h e b -> transient_returns h e b' -> b = b'.
Proof.
  intros [f Hf] [f' Hf'].
  pose proof (isTransientNetworkError_mono f (max f f') h e (Nat.le_max_l _ _)) as H.
  pose proof (isTransientNetworkError_mono f' (max f f') h e (Nat.le_max_r _ _)) as H'.
  rewrite Hf in H. rewrite Hf' in H'.
  apply res_le_Ok in H. apply res_le_Ok in H'. congruence.
Qed.

(** ** isRateLimitError *)

Lemma is_429_test v :
  is_429 v -> strict_eq v (VNum (Num "429")) || strict_eq v (VStr "429") = true.
Proof. intros [->| ->]; reflexivity. Qed.

(** C2, as the code has it: an object whose [status] is 429 (the number
    or the string "429"), or whose [status] is null or undefined and whose
    [statusCode] is 429, is a rate-limit error whatever its message. *)
Theorem isRateLimitError_status_429 (fuel : nat) (h : heap) (a : addr) :
  let e := VRef a in
  is_429 (get h e "status")
  \/ (nullish (get h e "status") = true /\ is_429 (get h e "statusCode")) ->
  isRateLimitError (S fuel) h e = Ok true.
Proof.
  intros e H. subst e. cbn [isRateLimitError truthy negb typeof type_tag_eqb
                            strict_eq andb].
  destruct H as [H|[Hn H]].
  - assert (nullish (get h (VRef a) "status") = false) as ->
      by (destruct H as [->| ->]; reflexivity).
    rewrite (is_429_test _ H). reflexivity.
  - rewrite Hn, (is_429_test _ H). reflexivity.
Qed.

(** ** isTransientNetworkError on an aggregate error *)

Lemma some_true_inv {A : Type} (f : A -> res bool) (l : list A) :
  some_ f l = Ok true -> exists m, In m l /\ f m = Ok true.
Proof.
  induction l as [|x l IH]; simpl; [discriminate|].
  destruct (f x) as [[|]| |] eqn:E; simpl; try discriminate.
  - intros _. exists x. auto.
  - intros H. destruct (IH H) as (m & Hin & Hm). exists m. auto.
Qed.

Lemma some_all_return {A : Type} (f : A -> res bool) (l : list A) :
  (forall m, In m l -> exists b, f m = Ok b) ->
  exists b, some_ f l = Ok b
            /\ (b = true <-> exists m, In m l /\ f m = Ok true).
Proof.
  induction l as [|x l IH]; intros H; simpl.
  - exists false. split; [reflexivity|]. split; [discriminate|].
    intros (m & [] & _).
  - destruct (H x (or_introl eq_refl)) as [[|] Hx]; rewrite Hx; simpl.
    + exists true. split; [reflexivity|]. split; [|reflexivity].
      intros _. exists x. auto.
    + destruct IH as (b & Hb & Hiff); [intros m Hm; apply H; now right|].
      exists b. split; [exact Hb|]. rewrite Hiff. split.
      * intros (m & Hin & Hm). exists m. auto.
      * intros (m & [->|Hin] & Hm); [congruence|]. exists m. auto.
Qed.

Lemma members_common_fuel h (l : list value) :
  (forall m, In m l -> exists b, transient_returns h m b) ->
  exists fuel, forall m, In m l -> exists b, isTransientNetworkError fuel h m = Ok b.
Proof.
  induction l as [|x l IH]; intros H.
  - exists 0. intros m [].
  - destruct (H x (or_introl eq_refl)) as (bx & fx & Hx).
    destruct IH as (fl & Hl); [intros m Hm; apply H; now right|].
    exists (max fx fl). intros m [<-|Hm].
    + exists bx. apply (res_le_Ok bx). rewrite <- Hx.
      apply isTransientNetworkError_mono, Nat.le_max_l.
    + destruct (Hl m Hm) as (b & Hb). exists b. apply (res_le_Ok b).
      rewrite <- Hb. apply isTransientNetworkError_mono, Nat.le_max_r.
Qed.

(** On an aggregate error that the code lookup does not settle and that
    has no cause to follow, the answer is that of [errors.some]. *)
Lemma isTransientNetworkError_aggregate fuel h a members :
  cls (obj_at h a) = AggregateErrorClass ->
  array_elems h (get h (VRef a) "errors") = Some members ->
  (forall code, extractErrorCodeWithCause h (VRef a) = Some code ->
                code ∉ TRANSIENT_NETWORK_CODES) ->
  (truthy (get h (VRef a) "cause") = false \/ get h (VRef a) "cause" = VRef a) ->
  isTransientNetworkError (S fuel) h (VRef a)
  = some_ (isTransientNetworkError fuel h) members.
Proof.
  intros Hcls Harr Hcode Hcause.
  cbn [Rejections.isTransientNetworkError truthy negb].
  assert ((code_truthy (extractErrorCodeWithCause h (VRef a))
           && match extractErrorCodeWithCause h (VRef a) with
              | Some c => bool_decide (c ∈ TRANSIENT_NETWORK_CODES)
              | None => false
              end) = false) as ->.
  { destruct (extractErrorCodeWithCause h (VRef a)) as [c|] eqn:E.
    - rewrite (bool_decide_eq_false_2 _ (Hcode c eq_refl)). apply andb_false_r.
    - reflexivity. }
  unfold instanceof_TypeError, instanceof_AggregateError, class_of.
  rewrite Hcls. cbn [andb].
  assert (truthy (getErrorCause h (VRef a))
          && negb (strict_eq (getErrorCause h (VRef a)) (VRef a)) = false) as ->.
  { unfold getErrorCause. cbn [truthy typeof type_tag_eqb negb orb].
    destruct Hcause as [->| ->]; [reflexivity|].
    cbn [truthy strict_eq]. rewrite Nat.eqb_refl. reflexivity. }
  rewrite Harr.
  destruct (length_truthy h (get h (VRef a) "errors")) eqn:Hlen; [reflexivity|].
  unfold length_truthy in Hlen. unfold array_elems in Harr.
  destruct (get h (VRef a) "errors"); try discriminate.
  rewrite Harr in Hlen. destruct members; [reflexivity | discriminate].
Qed.

(** C4, as the code has it: an aggregate error that the code lookup does
    not classify by itself and that has no cause to follow is transient
    exactly when one of its members is (the members returning an
    answer). *)
Theorem isTransientNetworkError_aggregate_iff (h : heap) (a : addr)
    (members : list value) :
  cls (obj_at h a) = AggregateErrorClass ->
  array_elems h (get h (VRef a) "errors") = Some members ->
  (forall code, extractErrorCodeWithCause h (VRef a) = Some code ->
                code ∉ TRANSIENT_NETWORK_CODES) ->
  (truthy (get h (VRef a) "cause") = false \/ get h (VRef a) "cause" = VRef a) ->
  (forall m, In m members -> exists b, transient_returns h m b) ->
  (exists b, transient_returns h (VRef a) b)
  /\ (transient_returns h (VRef a) true <->
      exists m, In m members /\ transient_returns h m true).
Proof.
  intros Hcls Harr Hcode Hcause Hret.
  pose proof (isTransientNetworkError_aggregate) as Hstep.
  specialize (fun fuel => Hstep fuel h a members Hcls Harr Hcode Hcause).
  destruct (members_common_fuel h members Hret) as (fuel & Hfuel).
  destruct (some_all_return _ _ Hfuel) as (b & Hb & Hiff).
  split.
  - exists b, (S fuel). now rewrite Hstep.
  - split.
    + intros [[|f] Hf]; [discriminate|]. rewrite Hstep in Hf.
      destruct (some_true_inv _ _ Hf) as (m & Hin & Hm).
      exists m. split; [exact Hin|]. now exists f.
    + intros (m & Hin & Hm). exists (S fuel). rewrite Hstep, Hb. f_equal.
      apply Hiff. exists m. split; [exact Hin|].
      destruct (Hfuel m Hin) as (b' & Hb'). rewrite Hb'. f_equal.
      apply (transient_returns_unique h m); [now exists fuel | exact Hm].
Qed.

End ClassifierFacts.

(** ** The classifier on the sample heaps *)

Import Examples.

Lemma isAbortError_iff_witness :
  isAbortError abort_heap (VRef 2) = true
  /\ isAbortError abort_heap (VRef 1) = false.
Proof.
  split.
  - apply (proj1 (isAbortError_iff abort_heap 2)). right. reflexivity.
  - apply (proj2 (isAbortError_iff abort_heap 1)) with (m := "Request was aborted").
    + discriminate.
    + simpl. auto.
    + reflexivity.
Defined.

Lemma isAbortError_non_object_witness :
  isAbortError ∅ (VStr "This operation was aborted") = false.
Proof. apply isAbortError_non_object. intros a. discriminate. Defined.

(** The claim of C6 fails where an error has a code of its own and a
    fatal cause: the cause carries a fatal code, and the error is not
    fatal. *)
Lemma isFatalError_own_code_hides_cause :
  Collaborators.extractErrorCode fatal_heap (VRef 1) = Some "E_CUSTOM"
  /\ Collaborators.extractErrorCode fatal_heap (getErrorCause fatal_heap (VRef 1))
     = Some "ERR_OUT_OF_MEMORY"
  /\ "ERR_OUT_OF_MEMORY" ∈ FATAL_ERROR_CODES
  /\ isFatalError Collaborators.extractErrorCode fatal_heap (VRef 1) = false.
Proof.
  split; [reflexivity|]. split; [reflexivity|]. split; [|reflexivity].
  apply FATAL_ERROR_CODES_members. simpl. auto.
Qed.

Lemma isFatalError_iff_witness :
  isFatalError Collaborators.extractErrorCode fatal_heap (VRef 3) = true.
Proof.
  apply isFatalError_iff. exists "ERR_OUT_OF_MEMORY". split.
  - simpl. auto.
  - right. split; [left|]; reflexivity.
Defined.

(** The claim of C2 fails where the two status properties disagree:
    [statusCode] is 429, [status] is 500, and the error is not a
    rate-limit error. *)
Lemma isRateLimitError_status_hides_statusCode :
  get status_heap (VRef 1) "statusCode" = VNum (Num "429")
  /\ forall fuel, isRateLimitError (S fuel) status_heap (VRef 1) = Ok false.
Proof. split; [reflexivity|]. intros fuel. vm_compute. reflexivity. Qed.

Lemma isRateLimitError_status_429_witness :
  isRateLimitError 1 status_heap (VRef 2) = Ok true.
Proof.
  apply (isRateLimitError_status_429 0 status_heap 2).
  right. split; [reflexivity|]. left. reflexivity.
Defined.

(** The guard [cause !== err] stops an error that is its own cause. *)
Example self_cause_is_guarded :
  isRateLimitError 1 self_cause_heap (VRef 1) = Ok false
  /\ isTransientNetworkError Collaborators.extractErrorCode 1 self_cause_heap (VRef 1)
     = Ok false.
Proof. split; reflexivity. Qed.

(** C3 fails on the code: a "fetch failed" TypeError that is its own
    cause, and two errors that are each other's cause, exhaust every
    stack. *)
Theorem cyclic_cause_overflows :
  (forall fuel,
     isTransientNetworkError Collaborators.extractErrorCode fuel
       self_cycle_heap (VRef 1) = OutOfFuel)
  /\ (forall fuel, isRateLimitError fuel two_cycle_heap (VRef 1) = OutOfFuel)
  /\ (forall fuel,
        isTransientNetworkError Collaborators.extractErrorCode fuel
          two_cycle_heap (VRef 1) = OutOfFuel).
Proof.
  split; [|split].
  - induction fuel as [|fuel IH]; [reflexivity|].
    rewrite <- IH. vm_compute. reflexivity.
  - assert (H : forall fuel,
               isRateLimitError fuel two_cycle_heap (VRef 1) = OutOfFuel
               /\ isRateLimitError fuel two_cycle_heap (VRef 2) = OutOfFuel).
    { induction fuel as [|fuel [IH1 IH2]]; [split; reflexivity|]. split.
      - rewrite <- IH2. vm_compute. reflexivity.
      - rewrite <- IH1. vm_compute. reflexivity. }
    intros fuel. apply H.
  - assert (H : forall fuel,
               isTransientNetworkError Collaborators.extractErrorCode fuel
                 two_cycle_heap (VRef 1) = OutOfFuel
               /\ isTransientNetworkError Collaborators.extractErrorCode fuel
                    two_cycle_heap (VRef 2) = OutOfFuel).
    { induction fuel as [|fuel [IH1 IH2]]; [split; reflexivity|]. split.
      - rewrite <- IH2. vm_compute. reflexivity.
      - rewrite <- IH1. vm_compute. reflexivity. }
    intros fuel. apply H.
Qed.

(** The claim of C4 fails on an aggregate error with a transient code of
    its own: it is transient and its only member is not. *)
Lemma aggregate_own_code_without_transient_member :
  cls (obj_at aggregate_heap 1) = AggregateErrorClass
  /\ array_elems aggregate_heap (get aggregate_heap (VRef 1) "errors") = Some [VRef 3]
  /\ isTransientNetworkError Collaborators.extractErrorCode 1 aggregate_heap (VRef 1)
     = Ok true
  /\ isTransientNetworkError Collaborators.extractErrorCode 1 aggregate_heap (VRef 3)
     = Ok false.
Proof. repeat split. Qed.

Lemma isTransientNetworkError_aggregate_iff_witness :
  transient_returns Collaborators.extractErrorCode aggregate_heap (VRef 4) true.
Proof.
  apply (isTransientNetworkError_aggregate_iff Collaborators.extractErrorCode
           aggregate_heap 4 [VRef 3; VRef 6]).
  - reflexivity.
  - reflexivity.
  - intros code H. vm_compute in H. discriminate.
  - left. reflexivity.
  - intros m [<-|[<-|[]]].
    + exists false, 1. reflexivity.
    + exists true, 1. reflexivity.
  - exists (VRef 6). split; [simpl; auto|]. exists 1. reflexivity.
Defined.

(** ** The handler registry *)

Import Policy.

Lemma live_cons_Some hd rest : live (Some hd :: rest) = hd :: live rest.
Proof. reflexivity. Qed.

Section GuardFacts.

Variable extractErrorCode : heap -> value -> option string.
Variable formatUncaughtError : heap -> value -> string.
Variable handler_body : hid -> value -> state -> hresult * state.

Abbreviation handlers_loop := (handlers_loop handler_body).
Abbreviation isUnhandledRejectionHandled := (isUnhandledRejectionHandled handler_body).
Abbreviation unhandledRejection_listener :=
  (unhandledRejection_listener extractErrorCode formatUncaughtError handler_body).
Abbreviation registry_kept := (registry_kept handler_body).
Abbreviation after_verdict := (after_verdict formatUncaughtError).
Abbreviation visits := (Notions.visits handler_body).

Lemma run_ok_hole rest b new : run_ok rest b new -> run_ok (None :: rest) b new.
Proof. intros H. exact H. Qed.

Lemma run_ok_true hd rest : run_ok (Some hd :: rest) true [(hd, HReturn true)].
Proof.
  split; [|split].
  - exists (live rest). reflexivity.
  - intros _. exists [], hd. split; [reflexivity | constructor].
  - discriminate.
Qed.

Lemma run_ok_next hd r rest b new :
  r <> HReturn true -> run_ok rest b new ->
  run_ok (Some hd :: rest) b ((hd, r) :: new).
Proof.
  intros Hr (Hpre & Ht & Hf). split; [|split].
  - destruct Hpre as (later & E). exists later. rewrite live_cons_Some, E. reflexivity.
  - intros Hb. destruct (Ht Hb) as (before & hd' & -> & Hall).
    exists ((hd, r) :: before), hd'. split; [reflexivity|].
    constructor; [exact Hr | exact Hall].
  - intros Hb. destruct (Hf Hb) as (E & Hall). split.
    + rewrite live_cons_Some. simpl. now rewrite E.
    + constructor; [exact Hr | exact Hall].
Qed.

Lemma handlers_loop_from reason entries :
  registry_kept reason entries ->
  forall rest i st calls fuel,
    handlers st = entries -> drop i entries = rest -> List.length rest < fuel ->
    exists b new st',
      handlers_loop fuel i reason st calls = Ok (b, (calls ++ new)%list, st')
      /\ handlers st' = entries
      /\ run_ok rest b new.
Proof.
  intros Hkept rest. induction rest as [|x rest IH]; intros i st calls fuel Hst Hdrop Hfuel.
  - destruct fuel as [|fuel]; [simpl in Hfuel; lia|].
    assert (entries !! i = None) as Hi.
    { apply lookup_ge_None. apply drop_nil_inv in Hdrop. exact Hdrop. }
    exists false, [], st. cbn [Rejections.handlers_loop]. rewrite Hst, Hi, app_nil_r.
    split; [reflexivity|]. split; [reflexivity|].
    split; [exists []; reflexivity|]. split; [discriminate|].
    intros _. split; [reflexivity | constructor].
  - destruct fuel as [|fuel]; [simpl in Hfuel; lia|]. simpl in Hfuel.
    assert (entries !! i = Some x) as Hi.
    { rewrite <- (Nat.add_0_r i), <- lookup_drop, Hdrop. reflexivity. }
    assert (drop (S i) entries = rest) as Hnext.
    { rewrite <- (Nat.add_1_r i), <- drop_drop, Hdrop. reflexivity. }
    cbn [Rejections.handlers_loop]. rewrite Hst, Hi.
    destruct x as [hd|].
    + assert (In (Some hd) entries) as Hin.
      { apply list_elem_of_In. eapply list_elem_of_lookup_2. exact Hi. }
      pose proof (Hkept hd st Hin) as Hk.
      destruct (handler_body hd reason st) as [[[|]|err] st1] eqn:E; simpl in Hk.
      * exists true, [(hd, HReturn true)], st1. split; [reflexivity|].
        split; [congruence|]. apply run_ok_true.
      * destruct (IH (S i) st1 (calls ++ [(hd, HReturn false)])%list fuel)
          as (b & new & st' & Hrun & Hh & Hok); [congruence | exact Hnext | lia |].
        exists b, ((hd, HReturn false) :: new), st'. rewrite Hrun, <- app_assoc.
        split; [reflexivity|]. split; [exact Hh|].
        apply run_ok_next; [discriminate | exact Hok].
      * destruct (IH (S i)
                    (console_error "[openclaw] Unhandled rejection handler failed:"
                       (failure_arg (st_heap st1) err) st1)
                    (calls ++ [(hd, HThrow err)])%list fuel)
          as (b & new & st' & Hrun & Hh & Hok);
          [rewrite <- Hst, <- Hk; reflexivity | exact Hnext | lia |].
        exists b, ((hd, HThrow err) :: new), st'. rewrite Hrun, <- app_assoc.
        split; [reflexivity|]. split; [exact Hh|].
        apply run_ok_next; [discriminate | exact Hok].
    + destruct (IH (S i) st calls fuel) as (b & new & st' & Hrun & Hh & Hok);
        [exact Hst | exact Hnext | lia |].
      exists b, new, st'. split; [exact Hrun|]. split; [exact Hh|].
      apply run_ok_hole. exact Hok.
Qed.


(** Every call that a run reports is what the handler did on some state. *)
Lemma handlers_loop_real reason fuel :
  forall i st acc b calls st',
    handlers_loop fuel i reason st acc = Ok (b, calls, st') ->
    exists new,
      calls = (acc ++ new)%list
      /\ Forall (fun c : call =>
                   exists s, fst (handler_body (fst c) reason s) = snd c) new.
Proof.
  induction fuel as [|fuel IH]; intros i st acc b calls st' H; [discriminate|].
  cbn [Rejections.handlers_loop] in H.
  destruct (handlers st !! i) as [[hd|]|].
  - destruct (handler_body hd reason st) as [r st1] eqn:E.
    assert (Hreal : exists s, fst (handler_body hd reason s) = r)
      by (exists st; now rewrite E).
    destruct r as [[|]|err].
    + injection H as <- <- <-. exists [(hd, HReturn true)].
      split; [reflexivity|]. constructor; [exact Hreal | constructor].
    + destruct (IH _ _ _ _ _ _ H) as (new & -> & Hf).
      exists ((hd, HReturn false) :: new). rewrite <- app_assoc.
      split; [reflexivity|]. constructor; [exact Hreal | exact Hf].
    + destruct (IH _ _ _ _ _ _ H) as (new & -> & Hf).
      exists ((hd, HThrow err) :: new). rewrite <- app_assoc.
      split; [reflexivity|]. constructor; [exact Hreal | exact Hf].
  - exact (IH _ _ _ _ _ _ H).
  - injection H as <- <- <-. exists []. rewrite app_nil_r.
    split; [reflexivity | constructor].
Qed.

(** With handlers that leave the registry alone, the loop from entry [i]
    on is a run over the live entries from there on. *)
Lemma handlers_loop_visits reason entries :
  registry_kept reason entries ->
  forall rest i st calls fuel,
    handlers st = entries -> drop i entries = rest -> List.length rest < fuel ->
    exists b new st',
      handlers_loop fuel i reason st calls = Ok (b, (calls ++ new)%list, st')
      /\ visits reason (live rest) st b new st'.
Proof.
  intros Hkept rest. induction rest as [|x rest IH]; intros i st calls fuel Hst Hdrop Hfuel.
  - destruct fuel as [|fuel]; [simpl in Hfuel; lia|].
    assert (entries !! i = None) as Hi.
    { apply lookup_ge_None. apply drop_nil_inv in Hdrop. exact Hdrop. }
    exists false, [], st. cbn [Rejections.handlers_loop]. rewrite Hst, Hi, app_nil_r.
    split; [reflexivity | constructor].
  - destruct fuel as [|fuel]; [simpl in Hfuel; lia|]. simpl in Hfuel.
    assert (entries !! i = Some x) as Hi.
    { rewrite <- (Nat.add_0_r i), <- lookup_drop, Hdrop. reflexivity. }
    assert (drop (S i) entries = rest) as Hnext.
    { rewrite <- (Nat.add_1_r i), <- drop_drop, Hdrop. reflexivity. }
    cbn [Rejections.handlers_loop]. rewrite Hst, Hi.
    destruct x as [hd|].
    + assert (In (Some hd) entries) as Hin.
      { apply list_elem_of_In. eapply list_elem_of_lookup_2. exact Hi. }
      pose proof (Hkept hd st Hin) as Hk.
      destruct (handler_body hd reason st) as [[[|]|err] st1] eqn:E; simpl in Hk.
      * exists true, [(hd, HReturn true)], st1. split; [reflexivity|].
        rewrite live_cons_Some. now apply Notions.visits_true.
      * destruct (IH (S i) st1 (calls ++ [(hd, HReturn false)])%list fuel)
          as (b & new & st' & Hrun & Hv); [congruence | exact Hnext | lia |].
        exists b, ((hd, HReturn false) :: new), st'. rewrite Hrun, <- app_assoc.
        split; [reflexivity|]. rewrite live_cons_Some.
        now apply (Notions.visits_false handler_body reason hd (live rest) st st1).
      * destruct (IH (S i)
                    (console_error "[openclaw] Unhandled rejection handler failed:"
                       (failure_arg (st_heap st1) err) st1)
                    (calls ++ [(hd, HThrow err)])%list fuel)
          as (b & new & st' & Hrun & Hv);
          [rewrite <- Hst, <- Hk; reflexivity | exact Hnext | lia |].
        exists b, ((hd, HThrow err) :: new), st'. rewrite Hrun, <- app_assoc.
        split; [reflexivity|]. rewrite live_cons_Some.
        now apply (Notions.visits_throw handler_body reason hd (live rest) st st1 err).
    + destruct (IH (S i) st calls fuel) as (b & new & st' & Hrun & Hv);
        [exact Hst | exact Hnext | lia |].
      exists b, new, st'. split; [exact Hrun | exact Hv].
Qed.


(** ** The listener *)

Lemma log_then_exit lv txt arg st :
  process_exit 1 (emit (ConsoleLog lv txt arg) st)
  = {| st_heap := st_heap st; handlers := handlers st;
       events := (events st ++ [ConsoleLog lv txt arg; ProcessExit 1])%list |}.
Proof. unfold process_exit, emit. simpl. rewrite <- app_assoc. reflexivity. Qed.

Lemma listener_refines_priority fuel reason st st1 :
  isUnhandledRejectionHandled fuel reason st = Ok (false, st1) ->
  unhandledRejection_listener fuel reason st
  = (c ← first_matching extractErrorCode fuel (st_heap st1) reason;
     Ok (after_verdict c reason st1)).
Proof.
  intros H. unfold Rejections.unhandledRejection_listener, first_matching.
  rewrite H.
  destruct (isAbortError (st_heap st1) reason); [reflexivity|].
  destruct (isFatalError extractErrorCode (st_heap st1) reason).
  { unfold console_error. rewrite log_then_exit. reflexivity. }
  destruct (isConfigError extractErrorCode (st_heap st1) reason).
  { unfold console_error. rewrite log_then_exit. reflexivity. }
  destruct (isTransientNetworkError extractErrorCode fuel (st_heap st1) reason)
    as [[|]| |]; try reflexivity.
  destruct (isRateLimitError fuel (st_heap st1) reason) as [[|]| |]; try reflexivity.
  cbn. unfold console_error. rewrite log_then_exit. reflexivity.
Qed.

Lemma verdict_exits c formatted :
  In (ProcessExit 1) (verdict c formatted) <-> terminates c = true.
Proof.
  unfold verdict. destruct (terminates c); simpl.
  - split; [reflexivity | auto].
  - split; [intros [H|[]]; discriminate | discriminate].
Qed.

(** On a reason that no registered handler claims and on which the
    predicates that are consulted return, the listener acts on the first
    classification that matches in the order Abort, Fatal, Config,
    TransientNetwork, RateLimit, Unclassified: it logs one line and calls
    [process.exit(1)] exactly when that classification is Fatal, Config
    or Unclassified.  A reason that [isAbortError] accepts is logged as a
    warning and never exits, whatever code it carries. *)
Theorem listener_priority_order (fuel : nat) (reason : value) (st st1 : state) :
  isUnhandledRejectionHandled fuel reason st = Ok (false, st1) ->
  let h := st_heap st1 in
  let run := unhandledRejection_listener fuel reason st in
  let act c := Ok (after_verdict c reason st1) in
  (isAbortError h reason = true -> run = act Abort)
  /\ (isAbortError h reason = false ->
      (isFatalError extractErrorCode h reason = true -> run = act Fatal)
      /\ (isFatalError extractErrorCode h reason = false ->
          (isConfigError extractErrorCode h reason = true -> run = act Config)
          /\ (isConfigError extractErrorCode h reason = false ->
              (isTransientNetworkError extractErrorCode fuel h reason = Ok true ->
               run = act TransientNetwork)
              /\ (isTransientNetworkError extractErrorCode fuel h reason = Ok false ->
                  (isRateLimitError fuel h reason = Ok true -> run = act RateLimit)
                  /\ (isRateLimitError fuel h reason = Ok false ->
                      run = act Unclassified)))))
  /\ (forall c formatted,
        In (ProcessExit 1) (verdict c formatted)
        <-> c = Fatal \/ c = Config \/ c = Unclassified)
  /\ (forall formatted,
        verdict Abort formatted
        = [ConsoleLog LWarn "[openclaw] Suppressed AbortError:" formatted]).
Proof.
  intros H h run act. subst run act.
  rewrite (listener_refines_priority _ _ _ _ H). fold h. unfold first_matching.
  split; [intros ->; reflexivity|]. split.
  { intros ->. split; [intros ->; reflexivity|]. intros ->.
    split; [intros ->; reflexivity|]. intros ->.
    split; [intros ->; reflexivity|]. intros ->.
    split; intros ->; reflexivity. }
  split; [|reflexivity].
  intros c formatted. rewrite verdict_exits.
  destruct c; simpl; intuition discriminate.
Qed.

End GuardFacts.

(** ** The fallback orchestrator *)

Import Fallback.

Section OrchestratorFacts.

Variable extractErrorCode : heap -> value -> option string.
Context {R W : Type}.
Variable world_heap : W -> heap.
Variable doWork : target -> W -> work_result R * W.
Variable error_message : heap -> value -> string.

Abbreviation classify := (classify extractErrorCode).
Abbreviation attempt_chain :=
  (attempt_chain extractErrorCode world_heap doWork error_message).
Abbreviation runWithModelFallback :=
  (runWithModelFallback extractErrorCode world_heap doWork error_message).
Abbreviation fails_retryably :=
  (fails_retryably extractErrorCode world_heap doWork error_message).

Lemma fails_retryably_records fuel ts w records w' :
  fails_retryably fuel ts w records w' -> map attempt_target records = ts.
Proof. induction 1; simpl; congruence. Qed.

Lemma attempt_chain_retry fuel n t rest attempts calls w w1 e reason :
  doWork t w = (Failure e, w1) ->
  classify fuel (world_heap w1) e = Ok reason ->
  retryable reason = true ->
  rest <> [] ->
  attempt_chain fuel n (t :: rest) attempts calls w
  = attempt_chain fuel n rest
      (attempts ++ [Attempt t reason (error_message (world_heap w1) e)])
      (calls ++ [t]) w1.
Proof.
  intros Hwork Hclass Hretry Hrest.
  destruct rest as [|t' rest]; [contradiction|].
  match goal with |- _ = ?rhs => set (next := rhs) end.
  cbn [Fallback.attempt_chain]. rewrite Hwork, Hclass.
  cbn [mbind res_bind]. rewrite Hretry. reflexivity.
Qed.

Lemma attempt_chain_skips fuel n ts w records w' :
  fails_retryably fuel ts w records w' ->
  forall t rest attempts calls,
    attempt_chain fuel n (ts ++ t :: rest) attempts calls w
    = attempt_chain fuel n (t :: rest) (attempts ++ records) (calls ++ ts) w'.
Proof.
  induction 1 as [w|t0 ts w w1 e reason records w2 Hwork Hclass Hretry _ IH];
    intros t rest attempts calls.
  - rewrite !app_nil_r. reflexivity.
  - rewrite <- app_comm_cons.
    rewrite (attempt_chain_retry _ _ _ _ _ _ _ _ _ _ Hwork Hclass Hretry)
      by (destruct ts; discriminate).
    rewrite IH, <- !app_assoc. reflexivity.
Qed.

(** C8 (on the orchestrator as the spec describes it): on a chain of
    length K whose first K-1 targets fail with rate-limit or
    transient-network errors and whose last target succeeds, the result
    is returned with K-1 attempt records, one per failed target in chain
    order, and the unit of work is invoked K times, once per target in
    chain order. *)
Theorem fallback_succeeds_on_last (fuel : nat) (ts : list target) (last : target)
    (w w1 w2 : W) (records : list AttemptRecord) (r : R) :
  fails_retryably fuel ts w records w1 ->
  doWork last w1 = (Success r, w2) ->
  let chain := (ts ++ [last])%list in
  let K := List.length chain in
  exists calls,
    runWithModelFallback fuel chain w = Ok (Completed r records, calls, w2)
    /\ List.length records = K - 1
    /\ map attempt_target records = ts
    /\ calls = chain
    /\ List.length calls = K.
Proof.
  intros Hfail Hlast chain K. exists chain. subst K chain.
  pose proof (fails_retryably_records _ _ _ _ _ Hfail) as Hrec.
  split; [|split; [|split; [exact Hrec|split; reflexivity]]].
  - unfold Fallback.runWithModelFallback.
    rewrite (attempt_chain_skips _ _ _ _ _ _ Hfail).
    cbn [Fallback.attempt_chain app]. rewrite Hlast. reflexivity.
  - rewrite <- Hrec, length_app, length_map. simpl. lia.
Qed.

(** C9 (on the orchestrator as the spec describes it): when the first
    attempt fails with an error that is neither a rate limit nor a
    transient network error, the unit of work is invoked once and the
    very error is raised again, whatever targets remain. *)
Theorem fallback_reraises_other (fuel : nat) (first : target) (rest : list target)
    (w w1 : W) (e : value) :
  doWork first w = (Failure e, w1) ->
  classify fuel (world_heap w1) e = Ok Other ->
  runWithModelFallback fuel (first :: rest) w = Ok (Reraised e, [first], w1).
Proof.
  intros Hwork Hclass. unfold Fallback.runWithModelFallback.
  cbn [Fallback.attempt_chain]. rewrite Hwork, Hclass. reflexivity.
Qed.

End OrchestratorFacts.

(** ** The registry, the listener and the orchestrator on the samples *)


(** The scenario of the spec: the first handler throws, the second
    returns [true], the third is not called. *)
Example first_throws_second_claims :
  handlers_loop sample_handler_body 4 0 (VRef 1) three_handlers []
  = Ok (true,
        [(1, HThrow (VStr "handler failed")); (2, HReturn true)],
        console_error "[openclaw] Unhandled rejection handler failed:"
          (VStr "handler failed") three_handlers).
Proof. reflexivity. Qed.

Lemma listener_priority_order_witness :
  unhandledRejection_listener Collaborators.extractErrorCode
    Collaborators.formatUncaughtError sample_handler_body 1 (VRef 3) bare_process
  = Ok (after_verdict Collaborators.formatUncaughtError Abort (VRef 3) bare_process)
  /\ isFatalError Collaborators.extractErrorCode abort_heap (VRef 3) = true.
Proof.
  split; [|reflexivity].
  apply (listener_priority_order Collaborators.extractErrorCode
           Collaborators.formatUncaughtError sample_handler_body
           1 (VRef 3) bare_process bare_process); reflexivity.
Defined.

Lemma limit_cycle_transient_overflows fuel :
  isTransientNetworkError Collaborators.extractErrorCode fuel
    MoreExamples.limit_cycle_heap (VRef 1) = OutOfFuel
  /\ isTransientNetworkError Collaborators.extractErrorCode fuel
       MoreExamples.limit_cycle_heap (VRef 2) = OutOfFuel.
Proof.
  induction fuel as [|fuel [IH1 IH2]]; [split; reflexivity|]. split.
  - rewrite <- IH2. vm_compute. reflexivity.
  - rewrite <- IH1. vm_compute. reflexivity.
Qed.

(** C1 fails on the code: a reason whose message reads "rate limit
    exceeded" and whose cause chain is a cycle of two errors is claimed by
    no handler, is no abort, fatal or configuration error, and is a
    rate-limit error; the listener should log a warning and let the
    process run.  It consults [isTransientNetworkError] first, which
    exhausts every stack, and never gets there. *)
Theorem listener_overflows_on_cyclic_rate_limit
    (formatUncaughtError : heap -> value -> string)
    (handler_body : hid -> value -> state -> hresult * state) :
  let reason := VRef 1 in
  let h := MoreExamples.limit_cycle_heap in
  (forall fuel,
     isUnhandledRejectionHandled handler_body (S fuel) reason MoreExamples.cycle_process
     = Ok (false, MoreExamples.cycle_process))
  /\ isAbortError h reason = false
  /\ isFatalError Collaborators.extractErrorCode h reason = false
  /\ isConfigError Collaborators.extractErrorCode h reason = false
  /\ (forall fuel, isRateLimitError (S fuel) h reason = Ok true)
  /\ (forall fuel,
        isTransientNetworkError Collaborators.extractErrorCode fuel h reason
        = OutOfFuel)
  /\ (forall fuel,
        unhandledRejection_listener Collaborators.extractErrorCode
          formatUncaughtError handler_body fuel reason MoreExamples.cycle_process
        = OutOfFuel).
Proof.
  intros reason h.
  assert (Hhandled : forall fuel,
             isUnhandledRejectionHandled handler_body (S fuel) reason
               MoreExamples.cycle_process
             = Ok (false, MoreExamples.cycle_process)) by reflexivity.
  assert (Htransient : forall fuel,
             isTransientNetworkError Collaborators.extractErrorCode fuel h reason
             = OutOfFuel) by (intros fuel; apply limit_cycle_transient_overflows).
  split; [exact Hhandled|]. split; [reflexivity|]. split; [reflexivity|].
  split; [reflexivity|]. split; [intros fuel; vm_compute; reflexivity|].
  split; [exact Htransient|].
  intros [|fuel]; [reflexivity|].
  rewrite (listener_refines_priority Collaborators.extractErrorCode
             formatUncaughtError handler_body _ _ _ _ (Hhandled fuel)).
  unfold first_matching.
  change (st_heap MoreExamples.cycle_process) with h.
  replace (isAbortError h reason) with false by reflexivity.
  replace (isFatalError Collaborators.extractErrorCode h reason) with false
    by reflexivity.
  replace (isConfigError Collaborators.extractErrorCode h reason) with false
    by reflexivity.
  rewrite Htransient. reflexivity.
Qed.

Lemma fallback_succeeds_on_last_witness :
  exists calls,
    runWithModelFallback Collaborators.extractErrorCode (fun _ : nat => work_heap)
      (scripted [Failure (VRef 1); Failure (VRef 1); Success "ok"])
      Collaborators.formatUncaughtError 1 [primary; fallback1; fallback2] 0
    = Ok (Completed "ok"
            [Attempt primary RateLimit "Too Many Requests";
             Attempt fallback1 RateLimit "Too Many Requests"], calls, 3)
    /\ List.length
         [Attempt primary RateLimit "Too Many Requests";
          Attempt fallback1 RateLimit "Too Many Requests"] = 3 - 1
    /\ map attempt_target
         [Attempt primary RateLimit "Too Many Requests";
          Attempt fallback1 RateLimit "Too Many Requests"] = [primary; fallback1]
    /\ calls = [primary; fallback1; fallback2]
    /\ List.length calls = 3.
Proof.
  apply (fallback_succeeds_on_last Collaborators.extractErrorCode
           (fun _ : nat => work_heap)
           (scripted [Failure (VRef 1); Failure (VRef 1); Success "ok"])
           Collaborators.formatUncaughtError 1 [primary; fallback1] fallback2 0 2 3).
  - exact (fails_cons Collaborators.extractErrorCode (fun _ : nat => work_heap)
             (scripted [Failure (VRef 1); Failure (VRef 1); Success "ok"])
             Collaborators.formatUncaughtError
             1 primary [fallback1] 0 1 (VRef 1) RateLimit
             [Attempt fallback1 RateLimit "Too Many Requests"] 2
             eq_refl eq_refl eq_refl
             (fails_cons Collaborators.extractErrorCode (fun _ : nat => work_heap)
                (scripted [Failure (VRef 1); Failure (VRef 1); Success "ok"])
                Collaborators.formatUncaughtError
                1 fallback1 [] 1 2 (VRef 1) RateLimit [] 2
                eq_refl eq_refl eq_refl
                (fails_nil Collaborators.extractErrorCode (fun _ : nat => work_heap)
                   (scripted [Failure (VRef 1); Failure (VRef 1); Success "ok"])
                   Collaborators.formatUncaughtError 1 2))).
  - reflexivity.
Defined.

Lemma fallback_reraises_other_witness :
  runWithModelFallback Collaborators.extractErrorCode (fun _ : nat => work_heap)
    (scripted [Failure (VRef 2); Success "ok"])
    Collaborators.formatUncaughtError 1 [primary; fallback1; fallback2] 0
  = Ok (Reraised (VRef 2), [primary], 1).
Proof.
  apply (fallback_reraises_other Collaborators.extractErrorCode
           (fun _ : nat => work_heap)
           (scripted [Failure (VRef 2); Success "ok"])
           Collaborators.formatUncaughtError 1 primary [fallback1; fallback2] 0 1 (VRef 2));
    reflexivity.
Defined.

(** * Further properties of the classifier *)

Import Notions.

Lemma CONFIG_ERROR_CODES_members code :
  code ∈ CONFIG_ERROR_CODES <->
  In code [ "INVALID_CONFIG"; "MISSING_API_KEY"; "MISSING_CREDENTIALS" ].
Proof.
  unfold CONFIG_ERROR_CODES. rewrite !elem_of_union, !elem_of_singleton.
  simpl. intuition congruence.
Qed.

Lemma code_sets_apart code :
  (code ∈ FATAL_ERROR_CODES ->
   (code ∉ CONFIG_ERROR_CODES) /\ (code ∉ TRANSIENT_NETWORK_CODES))
  /\ (code ∈ CONFIG_ERROR_CODES -> (code ∉ TRANSIENT_NETWORK_CODES)).
Proof.
  split.
  - intros H. apply FATAL_ERROR_CODES_members in H. simpl in H.
    destruct H as [<-|[<-|[<-|[<-|[<-|[]]]]]]; split; vm_compute; intros H; discriminate H.
  - intros H. apply CONFIG_ERROR_CODES_members in H. simpl in H.
    destruct H as [<-|[<-|[<-|[]]]]; vm_compute; intros H; discriminate H.
Qed.

Section ClassifierMore.

Variable extractErrorCode : heap -> value -> option string.

Abbreviation extractErrorCodeWithCause := (extractErrorCodeWithCause extractErrorCode).
Abbreviation isFatalError := (isFatalError extractErrorCode).
Abbreviation isConfigError := (isConfigError extractErrorCode).
Abbreviation isTransientNetworkError := (isTransientNetworkError extractErrorCode).
Abbreviation transient_returns := (transient_returns extractErrorCode).
Abbreviation has_transient_code := (has_transient_code extractErrorCode).

(** ** isConfigError *)

(** X1: [isConfigError] holds exactly when the code that the lookup selects is
    one of the three configuration codes: the code of the error itself
    when it carries one, the code of its direct cause otherwise. *)
Theorem isConfigError_iff (h : heap) (e : value) :
  isConfigError h e = true <->
  exists code,
    In code [ "INVALID_CONFIG"; "MISSING_API_KEY"; "MISSING_CREDENTIALS" ]
    /\ (extractErrorCode h e = Some code
        \/ ((extractErrorCode h e = None \/ extractErrorCode h e = Some "")
            /\ extractErrorCode h (getErrorCause h e) = Some code)).
Proof.
  assert (Hne : forall code, code ∈ CONFIG_ERROR_CODES -> code <> "").
  { intros code H ->. apply CONFIG_ERROR_CODES_members in H.
    simpl in H. intuition discriminate. }
  unfold Rejections.isConfigError. split.
  - destruct (extractErrorCodeWithCause h e) as [code|] eqn:E; [|discriminate].
    intros H. apply bool_decide_eq_true in H. exists code. split.
    + now apply CONFIG_ERROR_CODES_members.
    + apply (extractErrorCodeWithCause_spec extractErrorCode h e code). auto.
  - intros (code & Hin & H). apply CONFIG_ERROR_CODES_members in Hin.
    destruct (proj2 (extractErrorCodeWithCause_spec extractErrorCode h e code))
      as [-> _]; [auto|].
    now apply bool_decide_eq_true.
Qed.

(** X2: No error is both fatal and a configuration error, and the code that
    makes it one or the other is no transient network code. *)
Theorem fatal_config_transient_codes_exclusive (h : heap) (e : value) :
  (isFatalError h e = true ->
   isConfigError h e = false /\ has_transient_code h e = false)
  /\ (isConfigError h e = true ->
      isFatalError h e = false /\ has_transient_code h e = false).
Proof.
  unfold Rejections.isFatalError, Rejections.isConfigError,
    Notions.has_transient_code.
  destruct (extractErrorCodeWithCause h e) as [code|]; [|split; discriminate].
  destruct (code_sets_apart code) as [Hf Hc].
  split; intros H; apply bool_decide_eq_true in H.
  - destruct (Hf H) as [H1 H2].
    rewrite (bool_decide_eq_false_2 _ H1), (bool_decide_eq_false_2 _ H2).
    split; [reflexivity | apply andb_false_r].
  - rewrite (bool_decide_eq_false_2 _ (Hc H)). split; [|apply andb_false_r].
    apply bool_decide_eq_false_2. intros Hfatal.
    destruct (Hf Hfatal) as [Hn _]. exact (Hn H).
Qed.

(** ** isTransientNetworkError along the cause chain *)

Lemma cause_truthy_object h e :
  truthy (getErrorCause h e) = true -> truthy e = true.
Proof.
  unfold getErrorCause. destruct (truthy e); [reflexivity|]. simpl. discriminate.
Qed.

Lemma transient_code_step fuel h e :
  truthy e = true -> has_transient_code h e = true ->
  isTransientNetworkError (S fuel) h e = Ok true.
Proof.
  intros He Hc. cbn [Rejections.isTransientNetworkError]. rewrite He. cbn [negb].
  unfold Notions.has_transient_code in Hc. cbv zeta in Hc. rewrite Hc. reflexivity.
Qed.

Lemma transient_cause_step fuel h e :
  has_transient_code h e = false ->
  truthy (getErrorCause h e) = true ->
  strict_eq (getErrorCause h e) e = false ->
  isTransientNetworkError (S fuel) h e
  = isTransientNetworkError fuel h (getErrorCause h e).
Proof.
  intros Hc Ht Hd. cbn [Rejections.isTransientNetworkError].
  rewrite (cause_truthy_object _ _ Ht). cbn [negb].
  unfold Notions.has_transient_code in Hc. cbv zeta in Hc. rewrite Hc.
  rewrite Ht, Hd. cbn [negb andb].
  destruct (instanceof_TypeError h e && _); reflexivity.
Qed.

(** X3: An error that its own code lookup does not classify and that has a
    cause other than itself is transient exactly when the cause is:
    nothing else about the error is looked at. *)
Theorem isTransientNetworkError_defers_to_cause (h : heap) (e : value) (b : bool) :
  has_transient_code h e = false ->
  truthy (getErrorCause h e) = true ->
  strict_eq (getErrorCause h e) e = false ->
  (transient_returns h e b <-> transient_returns h (getErrorCause h e) b).
Proof.
  intros Hc Ht Hd. split.
  - intros [[|fuel] H]; [discriminate|].
    rewrite (transient_cause_step _ _ _ Hc Ht Hd) in H. now exists fuel.
  - intros [fuel H]. exists (S fuel).
    now rewrite (transient_cause_step _ _ _ Hc Ht Hd).
Qed.

Lemma own_transient_code h e code :
  extractErrorCode h e = Some code -> code ∈ TRANSIENT_NETWORK_CODES ->
  has_transient_code h e = true.
Proof.
  intros E Hin.
  assert (code <> "") as Hne by (intros ->; vm_compute in Hin; discriminate Hin).
  apply String.eqb_neq in Hne.
  assert (extractErrorCodeWithCause h e = Some code) as W.
  { unfold Rejections.extractErrorCodeWithCause. cbv zeta. rewrite E.
    cbn [code_truthy]. rewrite Hne. reflexivity. }
  unfold Notions.has_transient_code. cbv zeta. rewrite W.
  cbn [code_truthy]. rewrite Hne. cbn [negb andb].
  now apply bool_decide_eq_true_2.
Qed.

(** X4: A transient network code carried by the error or by any error met
    along its cause chain makes the error transient, however deep the
    chain and whatever codes the errors above carry. *)
Theorem transient_code_along_cause_chain (h : heap) (e e' : value) (code : string) :
  reaches h e e' ->
  truthy e' = true ->
  extractErrorCode h e' = Some code ->
  code ∈ TRANSIENT_NETWORK_CODES ->
  transient_returns h e true.
Proof.
  intros Hreach He' Hcode Hin.
  pose proof (own_transient_code h e' code Hcode Hin) as Hc.
  induction Hreach as [e|e e' Ht Hd _ IH].
  - exists 1. now apply transient_code_step.
  - destruct (has_transient_code h e) eqn:Hce.
    + exists 1. apply transient_code_step; [|exact Hce].
      exact (cause_truthy_object h e Ht).
    + destruct (IH He' Hcode Hc) as [fuel H]. exists (S fuel).
      now rewrite (transient_cause_step _ _ _ Hce Ht Hd).
Qed.

(** X5: A "fetch failed" TypeError without a cause is transient whatever
    else it carries; with a cause, and no transient code found by its own
    lookup, its answer is the answer on the cause, be the cause the error
    itself. *)
Theorem fetch_failed_verdict (fuel : nat) (h : heap) (e : value) :
  is_fetch_failed h e = true ->
  (truthy (getErrorCause h e) = false ->
   isTransientNetworkError (S fuel) h e = Ok true)
  /\ (truthy (getErrorCause h e) = true ->
      has_transient_code h e = false ->
      isTransientNetworkError (S fuel) h e
      = isTransientNetworkError fuel h (getErrorCause h e)).
Proof.
  intros Hf.
  assert (truthy e = true) as He.
  { unfold is_fetch_failed, instanceof_TypeError, class_of in Hf.
    destruct e; try discriminate. reflexivity. }
  unfold is_fetch_failed in Hf. split.
  - intros Hc. cbn [Rejections.isTransientNetworkError].
    rewrite He, Hf, Hc. cbn [negb].
    match goal with |- context [if ?c then Ok true else _] => destruct c end;
      reflexivity.
  - intros Hc Hcode. cbn [Rejections.isTransientNetworkError].
    unfold Notions.has_transient_code in Hcode. cbv zeta in Hcode.
    rewrite He, Hcode, Hf, Hc. reflexivity.
Qed.

(** ** Termination on heaps without cause cycles *)

Lemma some_settles {A : Type} (f : A -> res bool) (l : list A) :
  (forall x, In x l -> f x <> OutOfFuel) -> some_ f l <> OutOfFuel.
Proof.
  induction l as [|x l IH]; intros H; simpl; [discriminate|].
  pose proof (H x (or_introl eq_refl)) as Hx.
  destruct (f x) as [[|]| |]; simpl; try discriminate; [|contradiction].
  apply IH. intros y Hy. apply H. now right.
Qed.

Lemma settles_cases {A : Type} (r : res A) :
  r <> OutOfFuel -> (exists a, r = Ok a) \/ (exists msg, r = Throw msg).
Proof. destruct r; [eauto | eauto | contradiction]. Qed.

(** The stack that the cause of an object needs is smaller by one. *)
Lemma cause_stack h rank a n :
  causes_ranked h rank ->
  strict_eq (get h (VRef a) "cause") (VRef a) = false ->
  stack_for rank (VRef a) <= S n ->
  stack_for rank (get h (VRef a) "cause") <= n.
Proof.
  intros Hr Hd Hn. simpl in Hn.
  destruct (get h (VRef a) "cause") as [| | | | | | |c] eqn:E; simpl; try lia.
  simpl in Hd. apply Nat.eqb_neq in Hd.
  pose proof (Hr a c E Hd). lia.
Qed.

Lemma getErrorCause_object h a : getErrorCause h (VRef a) = get h (VRef a) "cause".
Proof. reflexivity. Qed.

Lemma getErrorCause_primitive h v :
  (forall a, v <> VRef a) -> truthy (getErrorCause h v) = false.
Proof.
  intros Hv. unfold getErrorCause.
  destruct v; cbn [truthy typeof type_tag_eqb negb orb];
    try reflexivity; try (rewrite orb_true_r; reflexivity).
  exfalso. apply (Hv a). reflexivity.
Qed.

Lemma isRateLimitError_settles h rank :
  causes_ranked h rank ->
  forall fuel v, stack_for rank v <= fuel -> isRateLimitError fuel h v <> OutOfFuel.
Proof.
  intros Hr. induction fuel as [|fuel IH]; intros v Hv.
  - destruct v; simpl in Hv; lia.
  - cbn [isRateLimitError].
    destruct (negb (truthy v)); [discriminate|].
    match goal with |- context [if ?c then Ok true else _] => destruct c end;
      [discriminate|].
    destruct (ToString h _); [|discriminate].
    destruct (existsb _ _); [discriminate|].
    destruct (truthy (getErrorCause h v)) eqn:Ht; [|discriminate].
    destruct (strict_eq (getErrorCause h v) v) eqn:Hd; [discriminate|].
    cbn [negb andb]. apply IH.
    destruct v as [| | | | | | |a];
      try (rewrite getErrorCause_primitive in Ht by discriminate; discriminate).
    rewrite getErrorCause_object in *. now apply (cause_stack h rank a).
Qed.

(** X6: On a heap whose cause chains end, self-causes apart,
    [isRateLimitError] returns or throws on every value, given a stack as
    deep as the chain. *)
Theorem isRateLimitError_terminates (h : heap) (rank : addr -> nat)
    (fuel : nat) (v : value) :
  causes_ranked h rank ->
  stack_for rank v <= fuel ->
  (exists b, isRateLimitError fuel h v = Ok b)
  \/ (exists msg, isRateLimitError fuel h v = Throw msg).
Proof.
  intros Hr Hv. apply settles_cases. now apply (isRateLimitError_settles h rank).
Qed.

Lemma isTransientNetworkError_settles h rank :
  causes_ranked h rank -> members_ranked h rank -> no_fetch_failed_self_cause h ->
  forall fuel v,
    stack_for rank v <= fuel -> isTransientNetworkError fuel h v <> OutOfFuel.
Proof.
  intros Hr Hm Hs. induction fuel as [|fuel IH]; intros v Hv.
  - destruct v; simpl in Hv; lia.
  - cbn [Rejections.isTransientNetworkError].
    destruct (negb (truthy v)); [discriminate|].
    match goal with |- context [if ?c then Ok true else _] => destruct c end;
      [discriminate|].
    destruct v as [| | | | | | |a];
      try (rewrite getErrorCause_primitive by discriminate;
           unfold instanceof_TypeError, instanceof_AggregateError, class_of;
           cbn [andb]; discriminate).
    rewrite getErrorCause_object.
    destruct (instanceof_TypeError h (VRef a) && _) eqn:Hf.
    + destruct (truthy (get h (VRef a) "cause")) eqn:Ht; [|discriminate].
      apply IH. apply (cause_stack h rank a); [exact Hr| |exact Hv].
      destruct (get h (VRef a) "cause") as [| | | | | | |c] eqn:E; try reflexivity.
      simpl. apply Nat.eqb_neq. intros ->. exact (Hs a Hf E).
    + destruct (truthy (get h (VRef a) "cause")) eqn:Ht; cbn [andb].
      * destruct (strict_eq (get h (VRef a) "cause") (VRef a)) eqn:Hd; cbn [negb].
        2: { apply IH. now apply (cause_stack h rank a). }
        destruct (instanceof_AggregateError h (VRef a) && _); [|discriminate].
        destruct (array_elems h _) as [l|] eqn:El; [|discriminate].
        apply some_settles. intros m Hin. apply IH.
        destruct m as [| | | | | | |m]; simpl in Hv |- *; try lia.
        pose proof (Hm a l m El Hin). lia.
      * destruct (instanceof_AggregateError h (VRef a) && _); [|discriminate].
        destruct (array_elems h _) as [l|] eqn:El; [|discriminate].
        apply some_settles. intros m Hin. apply IH.
        destruct m as [| | | | | | |m]; simpl in Hv |- *; try lia.
        pose proof (Hm a l m El Hin). lia.
Qed.

(** X7: On a heap whose cause chains end (self-causes apart), whose aggregate
    errors do not contain themselves, and where no "fetch failed"
    TypeError is its own cause, [isTransientNetworkError] returns or
    throws on every value, given a stack as deep as the heap is ranked. *)
Theorem isTransientNetworkError_terminates (h : heap) (rank : addr -> nat)
    (fuel : nat) (v : value) :
  causes_ranked h rank -> members_ranked h rank -> no_fetch_failed_self_cause h ->
  stack_for rank v <= fuel ->
  (exists b, isTransientNetworkError fuel h v = Ok b)
  \/ (exists msg, isTransientNetworkError fuel h v = Throw msg).
Proof.
  intros Hr Hm Hs Hv. apply settles_cases.
  now apply (isTransientNetworkError_settles h rank).
Qed.

End ClassifierMore.

(** ** What the rate-limit patterns match *)

Lemma same_text_cons ic c p x s :
  same_text ic (String c p) (String x s) = RegExp.char_eq ic c x && same_text ic p s.
Proof. reflexivity. Qed.

(** A pattern matches at the start of [s] exactly when one of its
    expansions reads there. *)
Lemma match_here_expansions ic p :
  forall s,
    RegExp.match_here ic p s = true <->
    exists e mid post,
      In e (expansions p) /\ s = mid ++ post /\ same_text ic e mid = true.
Proof.
  induction p as [|[c|cs] p IH]; intros s.
  - simpl. split.
    + intros _. exists "", "", s. simpl. auto.
    + reflexivity.
  - destruct s as [|x s]; cbn [RegExp.match_here expansions].
    + split; [discriminate|].
      intros (e & mid & post & Hin & Hs & Hm).
      apply in_map_iff in Hin. destruct Hin as (e0 & <- & _).
      destruct mid; [discriminate Hm | discriminate Hs].
    + rewrite andb_true_iff, IH. split.
      * intros (Hc & e & mid & post & Hin & -> & Hm).
        exists (String c e), (String x mid), post.
        split; [apply in_map; exact Hin|]. split; [reflexivity|].
        rewrite same_text_cons, Hc, Hm. reflexivity.
      * intros (e & mid & post & Hin & Hs & Hm).
        apply in_map_iff in Hin. destruct Hin as (e0 & <- & Hin).
        destruct mid as [|y mid]; [discriminate Hm|].
        simpl in Hs. injection Hs as <- ->.
        rewrite same_text_cons, andb_true_iff in Hm. destruct Hm as [Hc Hm].
        split; [exact Hc|]. exists e0, mid, post. auto.
  - cbn [RegExp.match_here expansions]. rewrite orb_true_iff, IH. split.
    + intros [H|(e & mid & post & Hin & -> & Hm)].
      * destruct s as [|x s]; [discriminate|].
        rewrite andb_true_iff, existsb_exists, IH in H.
        destruct H as ((c & Hc & Hcx) & e & mid & post & Hin & -> & Hm).
        exists (String c e), (String x mid), post. split.
        -- apply in_or_app. right. apply in_flat_map. exists c.
           split; [exact Hc | apply in_map; exact Hin].
        -- split; [reflexivity|]. rewrite same_text_cons, Hcx, Hm. reflexivity.
      * exists e, mid, post. split; [apply in_or_app; now left | auto].
    + intros (e & mid & post & Hin & -> & Hm).
      apply in_app_or in Hin. destruct Hin as [Hin|Hin].
      * right. exists e, mid, post. auto.
      * left. apply in_flat_map in Hin. destruct Hin as (c & Hc & Hin).
        apply in_map_iff in Hin. destruct Hin as (e0 & <- & Hin).
        destruct mid as [|x mid]; [discriminate Hm|].
        rewrite same_text_cons, andb_true_iff in Hm. destruct Hm as [Hcx Hm].
        change (String x mid ++ post) with (String x (mid ++ post)).
        cbv iota. rewrite andb_true_iff, existsb_exists, IH.
        split; [exists c; auto|]. exists e0, mid, post. auto.
Qed.

Lemma search_expansions ic p :
  forall s,
    RegExp.search ic p s = true <->
    exists e, In e (expansions p) /\ contains ic s e.
Proof.
  induction s as [|x s IH]; cbn [RegExp.search]; rewrite orb_true_iff.
  - rewrite match_here_expansions. split.
    + intros [(e & mid & post & Hin & Hs & Hm)|H]; [|discriminate].
      exists e. split; [exact Hin|]. exists "", mid, post. auto.
    + intros (e & Hin & pre & mid & post & Hs & Hm). left.
      destruct pre; [|discriminate Hs]. exists e, mid, post. auto.
  - rewrite match_here_expansions, IH. split.
    + intros [(e & mid & post & Hin & Hs & Hm)|(e & Hin & pre & mid & post & -> & Hm)].
      * exists e. split; [exact Hin|]. exists "", mid, post. auto.
      * exists e. split; [exact Hin|]. exists (String x pre), mid, post. auto.
    + intros (e & Hin & pre & mid & post & Hs & Hm).
      destruct pre as [|y pre].
      * left. exists e, mid, post. auto.
      * right. simpl in Hs. injection Hs as <- ->.
        exists e. split; [exact Hin|]. exists pre, mid, post. auto.
Qed.

(** The six patterns together look for the ten wordings of
    [RATE_LIMIT_PHRASES], anywhere in the text. *)
Lemma RATE_LIMIT_PATTERNS_phrases m :
  existsb (fun pattern => RegExp.test pattern m) RATE_LIMIT_PATTERNS = true
  <-> mentions_rate_limit m.
Proof.
  rewrite existsb_exists. unfold mentions_rate_limit. split.
  - intros (re & Hin & Ht). unfold RegExp.test in Ht.
    apply search_expansions in Ht. destruct Ht as (e & He & Hc).
    exists (RegExp.ignoreCase re), e. split; [|exact Hc].
    simpl in Hin.
    destruct Hin as [<-|[<-|[<-|[<-|[<-|[<-|[]]]]]]]; simpl in He;
      repeat match goal with
             | H : _ \/ _ |- _ => destruct H as [<-|H]
             | H : False |- _ => destruct H
             end;
      simpl; auto 12.
  - intros (ic & p & Hin & Hc). simpl in Hin.
    assert (forall re, In re RATE_LIMIT_PATTERNS ->
                       RegExp.ignoreCase re = ic -> In p (expansions (RegExp.items re)) ->
                       exists re, In re RATE_LIMIT_PATTERNS /\ RegExp.test re m = true)
      as Hre.
    { intros re H1 H2 H3. exists re. split; [exact H1|].
      unfold RegExp.test. apply search_expansions. exists p. rewrite H2. auto. }
    destruct Hin as [E|[E|[E|[E|[E|[E|[E|[E|[E|[E|[]]]]]]]]]]];
      injection E as <- <-.
    + apply (Hre (nth 0 RATE_LIMIT_PATTERNS (RegExp.RE [] false))); simpl; auto 12.
    + apply (Hre (nth 0 RATE_LIMIT_PATTERNS (RegExp.RE [] false))); simpl; auto 12.
    + apply (Hre (nth 0 RATE_LIMIT_PATTERNS (RegExp.RE [] false))); simpl; auto 12.
    + apply (Hre (nth 1 RATE_LIMIT_PATTERNS (RegExp.RE [] false))); simpl; auto 12.
    + apply (Hre (nth 2 RATE_LIMIT_PATTERNS (RegExp.RE [] false))); simpl; auto 12.
    + apply (Hre (nth 3 RATE_LIMIT_PATTERNS (RegExp.RE [] false))); simpl; auto 12.
    + apply (Hre (nth 4 RATE_LIMIT_PATTERNS (RegExp.RE [] false))); simpl; auto 12.
    + apply (Hre (nth 4 RATE_LIMIT_PATTERNS (RegExp.RE [] false))); simpl; auto 12.
    + apply (Hre (nth 4 RATE_LIMIT_PATTERNS (RegExp.RE [] false))); simpl; auto 12.
    + apply (Hre (nth 5 RATE_LIMIT_PATTERNS (RegExp.RE [] false))); simpl; auto 12.
Qed.

(** ** isRateLimitError on the message and along the cause *)

Lemma isRateLimitError_step fuel h e :
  isRateLimitError (S fuel) h e
  = if negb (truthy e) then Ok false
    else if status_is_429 h e then Ok true
    else match ToString h (message_of h e) with
         | None => Throw "TypeError: Cannot convert a Symbol value to a string"
         | Some m =>
           if existsb (fun pattern => RegExp.test pattern m) RATE_LIMIT_PATTERNS
           then Ok true
           else if truthy (getErrorCause h e)
                   && negb (strict_eq (getErrorCause h e) e)
                then isRateLimitError fuel h (getErrorCause h e)
                else Ok false
         end.
Proof. reflexivity. Qed.

Lemma patterns_decide m :
  existsb (fun pattern => RegExp.test pattern m) RATE_LIMIT_PATTERNS = false
  <-> ~ mentions_rate_limit m.
Proof.
  rewrite <- RATE_LIMIT_PATTERNS_phrases.
  destruct (existsb _ _).
  - split; [discriminate | intros H; exfalso; now apply H].
  - split; [intros _ H; discriminate | reflexivity].
Qed.

(** X8: A message that mentions a rate limit, in any of the ten wordings and
    anywhere in the text, makes the error a rate-limit error whatever its
    status and cause; on an error without a 429 status and without a cause
    to follow, nothing else does. *)
Theorem isRateLimitError_reads_message (fuel : nat) (h : heap) (e : value)
    (m : string) :
  truthy e = true ->
  ToString h (message_of h e) = Some m ->
  (mentions_rate_limit m -> isRateLimitError (S fuel) h e = Ok true)
  /\ (status_is_429 h e = false ->
      truthy (getErrorCause h e) && negb (strict_eq (getErrorCause h e) e) = false ->
      (exists b, isRateLimitError (S fuel) h e = Ok b)
      /\ (isRateLimitError (S fuel) h e = Ok true <-> mentions_rate_limit m)).
Proof.
  intros He Hm. rewrite isRateLimitError_step, He, Hm. cbn [negb]. split.
  - intros H. apply RATE_LIMIT_PATTERNS_phrases in H. rewrite H.
    destruct (status_is_429 h e); reflexivity.
  - intros -> ->. rewrite <- RATE_LIMIT_PATTERNS_phrases.
    destruct (existsb _ _); split; eauto; split; congruence.
Qed.

(** X9: An error with a cause other than itself is a rate-limit error as soon
    as the cause is; when the error itself shows neither a 429 status nor
    a rate-limit wording, it is one exactly when the cause is. *)
Theorem isRateLimitError_follows_cause (h : heap) (e : value) (m : string) :
  truthy (getErrorCause h e) = true ->
  strict_eq (getErrorCause h e) e = false ->
  ToString h (message_of h e) = Some m ->
  (rate_limit_returns h (getErrorCause h e) true -> rate_limit_returns h e true)
  /\ (status_is_429 h e = false -> ~ mentions_rate_limit m ->
      forall b, rate_limit_returns h e b
                <-> rate_limit_returns h (getErrorCause h e) b).
Proof.
  intros Ht Hd Hm.
  assert (Hstep : forall fuel,
             isRateLimitError (S fuel) h e
             = if status_is_429 h e then Ok true
               else if existsb (fun pattern => RegExp.test pattern m)
                         RATE_LIMIT_PATTERNS
                    then Ok true
                    else isRateLimitError fuel h (getErrorCause h e)).
  { intros fuel. rewrite isRateLimitError_step, (cause_truthy_object _ _ Ht), Hm, Ht, Hd.
    reflexivity. }
  split.
  - intros [fuel H]. exists (S fuel). rewrite Hstep, H.
    destruct (status_is_429 h e); [reflexivity|].
    destruct (existsb _ _); reflexivity.
  - intros Hs Hn b. apply patterns_decide in Hn. split.
    + intros [[|fuel] H]; [discriminate|]. rewrite Hstep, Hs, Hn in H. now exists fuel.
    + intros [fuel H]. exists (S fuel). now rewrite Hstep, Hs, Hn.
Qed.

(** * Further properties of the registry and the listener *)

Lemma live_app es es' : live (es ++ es')%list = (live es ++ live es')%list.
Proof. unfold live. apply omap_app. Qed.

Lemma set_has_live hd es : set_has hd es = true <-> In hd (live es).
Proof.
  unfold set_has. rewrite existsb_exists. split.
  - intros ([x|] & Hin & Hx); [|discriminate].
    apply Nat.eqb_eq in Hx. subst x.
    apply list_elem_of_In. unfold live. apply list_elem_of_omap.
    exists (Some hd). split; [now apply list_elem_of_In | reflexivity].
  - intros Hin. apply list_elem_of_In in Hin. unfold live in Hin.
    apply list_elem_of_omap in Hin. destruct Hin as ([x|] & Hin & Hx); [|discriminate].
    simpl in Hx. injection Hx as ->. exists (Some hd).
    split; [now apply list_elem_of_In | apply Nat.eqb_refl].
Qed.

Lemma live_set_add hd es :
  live (set_add hd es)
  = if set_has hd es then live es else (live es ++ [hd])%list.
Proof.
  unfold set_add. destruct (set_has hd es); [reflexivity|]. apply live_app.
Qed.

Lemma live_set_delete hd es :
  live (set_delete hd es) = List.filter (fun x => negb (Nat.eqb x hd)) (live es).
Proof.
  induction es as [|[x|] es IH]; [reflexivity| |exact IH].
  cbn [set_delete map]. destruct (Nat.eqb x hd) eqn:E.
  - change (live (Some x :: es)) with (x :: live es). cbn [List.filter].
    rewrite E. cbn [negb]. exact IH.
  - change (live (Some x :: es)) with (x :: live es). cbn [List.filter].
    rewrite E. cbn [negb].
    change (live (Some x :: ?l)) with (x :: live l). f_equal. exact IH.
Qed.

Lemma filter_keeps_all (f : hid -> bool) (l : list hid) :
  (forall x, In x l -> f x = true) -> List.filter f l = l.
Proof.
  induction l as [|x l IH]; intros H; [reflexivity|]. cbn [List.filter].
  rewrite (H x (or_introl eq_refl)). f_equal. apply IH.
  intros y Hy. apply H. now right.
Qed.

Lemma registry_step_NoDup st op :
  List.NoDup (live (handlers st)) -> List.NoDup (live (handlers (registry_step st op))).
Proof.
  intros H. destruct op as [hd|hd]; cbn [registry_step
    registerUnhandledRejectionHandler fst snd with_handlers handlers].
  - rewrite live_set_add. destruct (set_has hd (handlers st)) eqn:E; [exact H|].
    apply List.NoDup_app; [exact H | repeat constructor; intros [] |].
    intros x Hx [<-|[]]. apply set_has_live in Hx. congruence.
  - rewrite live_set_delete. now apply List.NoDup_filter.
Qed.

(** X10: Whatever is registered and unregistered, in whatever order, no
    handler is in the registry twice. *)
Theorem registry_never_holds_a_handler_twice (ops : list registry_op) (st : state) :
  List.NoDup (live (handlers st)) ->
  List.NoDup (live (handlers (registry_after ops st))).
Proof.
  revert st. induction ops as [|op ops IH]; intros st H; [exact H|].
  apply IH. now apply registry_step_NoDup.
Qed.

(** X11: Registering puts the handler in the registry, last if it is new and
    where it was if it is not; the returned closure takes it out and
    leaves the others in their order, so that registering a new handler
    and unregistering it restores the registry. *)
Theorem register_then_unregister (handler : hid) (st : state) :
  let registered := fst (registerUnhandledRejectionHandler handler st) in
  let unregister := snd (registerUnhandledRejectionHandler handler st) in
  In handler (live (handlers registered))
  /\ (In handler (live (handlers st)) ->
      live (handlers registered) = live (handlers st))
  /\ (~ In handler (live (handlers st)) ->
      live (handlers registered) = (live (handlers st) ++ [handler])%list
      /\ live (handlers (unregister registered)) = live (handlers st))
  /\ (forall st',
        live (handlers (unregister st'))
        = List.filter (fun x => negb (Nat.eqb x handler)) (live (handlers st'))
        /\ ~ In handler (live (handlers (unregister st')))
        /\ st_heap (unregister st') = st_heap st'
        /\ events (unregister st') = events st').
Proof.
  cbn [registerUnhandledRejectionHandler fst snd with_handlers handlers st_heap events].
  rewrite live_set_add.
  split; [|split; [|split]].
  - destruct (set_has handler (handlers st)) eqn:E.
    + now apply set_has_live.
    + apply in_or_app. right. now left.
  - intros H. apply set_has_live in H. now rewrite H.
  - intros H.
    assert (set_has handler (handlers st) = false) as E.
    { destruct (set_has handler (handlers st)) eqn:E; [|reflexivity].
      apply set_has_live in E. contradiction. }
    rewrite E. split; [reflexivity|].
    rewrite live_set_delete, live_set_add, E, List.filter_app.
    change (List.filter (fun x => negb (Nat.eqb x handler)) [handler])
      with (if negb (Nat.eqb handler handler) then [handler] else []).
    rewrite Nat.eqb_refl. cbn [negb]. rewrite app_nil_r. apply filter_keeps_all.
    intros x Hx. apply negb_true_iff, Nat.eqb_neq. intros ->. contradiction.
  - intros st'. rewrite live_set_delete. split; [reflexivity|].
    split; [|split; reflexivity].
    intros H. apply List.filter_In in H. destruct H as [_ H].
    rewrite Nat.eqb_refl in H. discriminate.
Qed.

Section GuardMore.

Variable extractErrorCode : heap -> value -> option string.
Variable formatUncaughtError : heap -> value -> string.
Variable handler_body : hid -> value -> state -> hresult * state.

Abbreviation handlers_loop := (handlers_loop handler_body).
Abbreviation isUnhandledRejectionHandled := (isUnhandledRejectionHandled handler_body).
Abbreviation unhandledRejection_listener :=
  (unhandledRejection_listener extractErrorCode formatUncaughtError handler_body).
Abbreviation registry_kept := (registry_kept handler_body).

(** X12: With handlers that leave the registry alone, one rejection calls
    registered handlers only, each at most once, and a registry without
    live entries answers [false] without a call. *)
Theorem handlers_called_once_each (reason : value) (st : state) :
  registry_kept reason (handlers st) ->
  List.NoDup (live (handlers st)) ->
  exists b calls st',
    handlers_loop (S (List.length (handlers st))) 0 reason st [] = Ok (b, calls, st')
    /\ List.NoDup (map fst calls)
    /\ (forall handler, In handler (map fst calls) -> In handler (live (handlers st)))
    /\ (live (handlers st) = [] -> b = false /\ calls = []).
Proof.
  intros Hkept Hnd.
  destruct (handlers_loop_from handler_body reason (handlers st) Hkept (handlers st)
              0 st [] (S (List.length (handlers st))))
    as (b & calls & st' & Hrun & _ & (later & Hpre) & Ht & _);
    [reflexivity | reflexivity | lia |].
  exists b, calls, st'. cbn [app] in Hrun. split; [exact Hrun|].
  rewrite Hpre in Hnd. split; [|split].
  - exact (List.NoDup_app_remove_r _ _ Hnd).
  - intros handler H. rewrite Hpre. apply in_or_app. now left.
  - intros Hl. rewrite Hl in Hpre. symmetry in Hpre.
    apply app_eq_nil in Hpre. destruct Hpre as [Hc _].
    assert (calls = []) as -> by (destruct calls; [reflexivity | discriminate Hc]).
    split; [|reflexivity].
    destruct b; [|reflexivity].
    destruct (Ht eq_refl) as (before & hd & E & _). destruct before; discriminate E.
Qed.

(** X14: When [extractErrorCode] finds no code on values that are not objects,
    no such value (a string, a number, null, undefined, ...) is a
    transient network error. *)
Theorem primitives_are_not_transient (fuel : nat) (h : heap) (v : value) :
  (forall h' v', (forall a, v' <> VRef a) -> extractErrorCode h' v' = None) ->
  (forall a, v <> VRef a) ->
  isTransientNetworkError extractErrorCode (S fuel) h v = Ok false.
Proof.
  intros Hex Hv. cbn [Rejections.isTransientNetworkError].
  destruct (negb (truthy v)); [reflexivity|].
  unfold Rejections.extractErrorCodeWithCause.
  rewrite (Hex h v Hv). cbn [code_truthy].
  assert (getErrorCause h v = VUndefined) as ->.
  { unfold getErrorCause.
    destruct v; cbn [truthy typeof type_tag_eqb negb orb];
      try reflexivity; try (rewrite orb_true_r; reflexivity).
    exfalso. apply (Hv a). reflexivity. }
  rewrite (Hex h VUndefined) by discriminate. cbn [andb truthy].
  unfold instanceof_TypeError, instanceof_AggregateError, class_of.
  destruct v; try reflexivity. exfalso. apply (Hv a). reflexivity.
Qed.

End GuardMore.

(** * Edge cases of the recursive predicates *)

Section ClassifierEdges.

Variable extractErrorCode : heap -> value -> option string.

Abbreviation isTransientNetworkError := (isTransientNetworkError extractErrorCode).
Abbreviation has_transient_code := (has_transient_code extractErrorCode).

Lemma isTransientNetworkError_members_step fuel h a :
  cls (obj_at h a) = AggregateErrorClass ->
  has_transient_code h (VRef a) = false ->
  truthy (get h (VRef a) "cause") && negb (strict_eq (get h (VRef a) "cause") (VRef a))
  = false ->
  isTransientNetworkError (S fuel) h (VRef a)
  = if length_truthy h (get h (VRef a) "errors")
    then match array_elems h (get h (VRef a) "errors") with
         | Some errors => some_ (isTransientNetworkError fuel h) errors
         | None => Throw "TypeError: err.errors.some is not a function"
         end
    else Ok false.
Proof.
  intros Hcls Hc Hcause. cbn [Rejections.isTransientNetworkError truthy negb].
  unfold Notions.has_transient_code in Hc. cbv zeta in Hc. rewrite Hc.
  unfold instanceof_TypeError, instanceof_AggregateError, class_of.
  rewrite Hcls. cbn [andb]. rewrite getErrorCause_object, Hcause. reflexivity.
Qed.

(** X15: An aggregate error without members ([errors] missing, null or an
    empty array) that neither its code lookup nor a cause classifies is
    not transient. *)
Theorem aggregate_without_members (fuel : nat) (h : heap) (a : addr) :
  cls (obj_at h a) = AggregateErrorClass ->
  has_transient_code h (VRef a) = false ->
  truthy (get h (VRef a) "cause") && negb (strict_eq (get h (VRef a) "cause") (VRef a))
  = false ->
  nullish (get h (VRef a) "errors") = true
  \/ array_elems h (get h (VRef a) "errors") = Some [] ->
  isTransientNetworkError (S fuel) h (VRef a) = Ok false.
Proof.
  intros Hcls Hc Hcause He.
  rewrite (isTransientNetworkError_members_step _ _ _ Hcls Hc Hcause).
  destruct He as [He|He].
  - destruct (get h (VRef a) "errors"); try discriminate He; reflexivity.
  - rewrite He. destruct (length_truthy h _); reflexivity.
Qed.

(** X16: The predicates throw a TypeError on two malformed errors: an
    aggregate error whose [errors] has a length but is no array, and an
    Error whose [message] is a symbol. *)
Theorem malformed_errors_throw (fuel : nat) (h : heap) (a : addr) :
  (cls (obj_at h a) = AggregateErrorClass ->
   has_transient_code h (VRef a) = false ->
   truthy (get h (VRef a) "cause")
   && negb (strict_eq (get h (VRef a) "cause") (VRef a)) = false ->
   length_truthy h (get h (VRef a) "errors") = true ->
   array_elems h (get h (VRef a) "errors") = None ->
   isTransientNetworkError (S fuel) h (VRef a)
   = Throw "TypeError: err.errors.some is not a function")
  /\ (instanceof_Error h (VRef a) = true ->
      status_is_429 h (VRef a) = false ->
      typeof (get h (VRef a) "message") = TSymbol ->
      isRateLimitError (S fuel) h (VRef a)
      = Throw "TypeError: Cannot convert a Symbol value to a string").
Proof.
  split.
  - intros Hcls Hc Hcause Hl Ha.
    rewrite (isTransientNetworkError_members_step _ _ _ Hcls Hc Hcause), Hl, Ha.
    reflexivity.
  - intros Hi Hs Hm. rewrite isRateLimitError_step. cbn [truthy negb].
    rewrite Hs. unfold message_of. rewrite Hi.
    destruct (get h (VRef a) "message"); try discriminate Hm. reflexivity.
Qed.

End ClassifierEdges.

(** * Failing handlers are logged *)

Section HandlerFailures.

Variable handler_body : hid -> value -> state -> hresult * state.

Abbreviation handlers_loop := (handlers_loop handler_body).
Abbreviation registry_kept := (registry_kept handler_body).
Abbreviation visits := (visits handler_body).
Abbreviation events_kept := (events_kept handler_body).
Abbreviation heap_kept := (heap_kept handler_body).

Lemma visits_events reason hs st b calls st' :
  events_kept reason ->
  visits reason hs st b calls st' ->
  exists lines,
    events st' = (events st ++ lines)%list
    /\ Forall2 logs_failure lines (List.filter is_throw calls).
Proof.
  intros Hev. induction 1 as [st|hd later st st1 E|hd later st st1 b calls st' E _ IH
                             |hd later st st1 err b calls st' E _ IH].
  - exists []. rewrite app_nil_r. split; [reflexivity | constructor].
  - exists []. rewrite app_nil_r. split; [|constructor].
    pose proof (Hev hd st) as Hk. rewrite E in Hk. exact Hk.
  - destruct IH as (lines & He & Hl). exists lines. split; [|exact Hl].
    pose proof (Hev hd st) as Hk. rewrite E in Hk. simpl in Hk. congruence.
  - destruct IH as (lines & He & Hl).
    exists (ConsoleLog LError "[openclaw] Unhandled rejection handler failed:"
              (failure_arg (st_heap st1) err) :: lines).
    split.
    + pose proof (Hev hd st) as Hk. rewrite E in Hk. simpl in Hk.
      rewrite He. cbn [console_error emit events]. rewrite Hk, <- app_assoc.
      reflexivity.
    + cbn [List.filter is_throw snd]. constructor; [|exact Hl].
      exists (st_heap st1), err. split; reflexivity.
Qed.

Lemma visits_heap reason hs st b calls st' :
  heap_kept reason ->
  visits reason hs st b calls st' ->
  st_heap st' = st_heap st.
Proof.
  intros Hh. induction 1 as [st|hd later st st1 E|hd later st st1 b calls st' E _ IH
                            |hd later st st1 err b calls st' E _ IH].
  - reflexivity.
  - pose proof (Hh hd st) as Hk. rewrite E in Hk. exact Hk.
  - pose proof (Hh hd st) as Hk. rewrite E in Hk. simpl in Hk. congruence.
  - pose proof (Hh hd st) as Hk. rewrite E in Hk. simpl in Hk.
    rewrite IH. exact Hk.
Qed.

(** X17: With handlers that leave the registry alone and write nothing
    themselves, the loop returns, its calls are the run over the
    registered handlers (each recorded throw is a handler that threw),
    and it adds to the console one [console.error] line per handler that
    threw, in order, each carrying what that handler threw, and nothing
    else. *)
Theorem handler_failures_are_logged (reason : value) (st : state) :
  registry_kept reason (handlers st) ->
  events_kept reason ->
  exists b calls st' lines,
    handlers_loop (S (List.length (handlers st))) 0 reason st [] = Ok (b, calls, st')
    /\ visits reason (live (handlers st)) st b calls st'
    /\ events st' = (events st ++ lines)%list
    /\ Forall2 logs_failure lines (List.filter is_throw calls).
Proof.
  intros Hkept Hev.
  destruct (handlers_loop_visits handler_body reason (handlers st) Hkept (handlers st)
              0 st [] (S (List.length (handlers st))))
    as (b & calls & st' & Hrun & Hv); [reflexivity | reflexivity | lia |].
  destruct (visits_events _ _ _ _ _ _ Hev Hv) as (lines & He & Hl).
  exists b, calls, st', lines. cbn [app] in Hrun. auto.
Qed.

End HandlerFailures.

(** * Registered and unregistered handlers *)

Section HandlerOutcome.

Variable handler_body : hid -> value -> state -> hresult * state.

Abbreviation handlers_loop := (handlers_loop handler_body).
Abbreviation isUnhandledRejectionHandled := (isUnhandledRejectionHandled handler_body).
Abbreviation registry_kept := (registry_kept handler_body).

(** X18: A registered handler that claims the rejection is honoured: with
    handlers that leave the registry alone, the rejection counts as
    handled whatever the other handlers return or throw. *)
Theorem claiming_handler_wins (reason : value) (st : state) (handler : hid) :
  registry_kept reason (handlers st) ->
  In handler (live (handlers st)) ->
  (forall s, fst (handler_body handler reason s) = HReturn true) ->
  exists st',
    isUnhandledRejectionHandled (S (List.length (handlers st))) reason st
    = Ok (true, st').
Proof.
  intros Hkept Hin Htrue.
  destruct (handlers_loop_from handler_body reason (handlers st) Hkept (handlers st)
              0 st [] (S (List.length (handlers st))))
    as (b & calls & st' & Hrun & _ & _ & _ & Hf);
    [reflexivity | reflexivity | lia |].
  cbn [app] in Hrun. exists st'.
  unfold Rejections.isUnhandledRejectionHandled. rewrite Hrun.
  destruct b; [reflexivity|]. exfalso.
  destruct (Hf eq_refl) as [Hall Hnt].
  destruct (handlers_loop_real handler_body _ _ _ _ _ _ _ _ Hrun) as (new & E & Hreal).
  cbn [app] in E. subst new.
  rewrite <- Hall in Hin. apply in_map_iff in Hin.
  destruct Hin as ([hd r] & Hhd & Hc). simpl in Hhd. subst hd.
  rewrite List.Forall_forall in Hnt, Hreal.
  destruct (Hreal _ Hc) as (s & Hs). simpl in Hs.
  apply (Hnt _ Hc). simpl. rewrite <- Hs. apply Htrue.
Qed.

(** X19: Once the closure that registration returned has run, the handler is
    not called any more (by a loop whose handlers leave the registry
    alone). *)
Theorem unregistered_handler_is_not_called (reason : value) (st0 st : state)
    (handler : hid) :
  let unregister := snd (registerUnhandledRejectionHandler handler st0) in
  registry_kept reason (handlers (unregister st)) ->
  exists b calls st',
    handlers_loop (S (List.length (handlers (unregister st)))) 0 reason
      (unregister st) [] = Ok (b, calls, st')
    /\ ~ In handler (map fst calls).
Proof.
  intros unregister Hkept.
  destruct (handlers_loop_from handler_body reason _ Hkept (handlers (unregister st))
              0 (unregister st) [] (S (List.length (handlers (unregister st)))))
    as (b & calls & st' & Hrun & _ & (later & Hpre) & _);
    [reflexivity | reflexivity | lia |].
  exists b, calls, st'. cbn [app] in Hrun. split; [exact Hrun|].
  intros Hin.
  assert (In handler (live (handlers (unregister st)))) as H
    by (rewrite Hpre; apply in_or_app; now left).
  subst unregister.
  cbn [registerUnhandledRejectionHandler snd with_handlers handlers] in H.
  rewrite live_set_delete in H. apply List.filter_In in H. destruct H as [_ H].
  rewrite Nat.eqb_refl in H. discriminate.
Qed.

End HandlerOutcome.

(** * The listener on well-formed rejections *)

Section ReturnsBool.

Variable extractErrorCode : heap -> value -> option string.

Abbreviation isTransientNetworkError := (isTransientNetworkError extractErrorCode).

Lemma message_converts h v :
  messages_convert h -> exists m, ToString h (message_of h v) = Some m.
Proof.
  intros Hm. unfold message_of.
  destruct (instanceof_Error h v) eqn:E; [|eexists; reflexivity].
  destruct v as [| | | | | | |a]; try discriminate E.
  pose proof (Hm a E) as Hs.
  destruct (get h (VRef a) "message"); try (eexists; reflexivity).
  exfalso. apply Hs. reflexivity.
Qed.

Lemma isRateLimitError_returns h rank :
  causes_ranked h rank -> messages_convert h ->
  forall fuel v, stack_for rank v <= fuel -> exists b, isRateLimitError fuel h v = Ok b.
Proof.
  intros Hr Hm. induction fuel as [|fuel IH]; intros v Hv.
  - destruct v; simpl in Hv; lia.
  - rewrite isRateLimitError_step.
    destruct (negb (truthy v)); [eauto|].
    destruct (status_is_429 h v); [eauto|].
    destruct (message_converts h v Hm) as (m & ->).
    destruct (existsb _ _); [eauto|].
    destruct (truthy (getErrorCause h v)) eqn:Ht; [|eauto].
    destruct (strict_eq (getErrorCause h v) v) eqn:Hd; [eauto|].
    cbn [negb andb]. apply IH.
    destruct v as [| | | | | | |a];
      try (rewrite getErrorCause_primitive in Ht by discriminate; discriminate).
    rewrite getErrorCause_object in *. now apply (cause_stack h rank a).
Qed.

Lemma isTransientNetworkError_returns h rank :
  causes_ranked h rank -> members_ranked h rank -> no_fetch_failed_self_cause h ->
  members_are_arrays h ->
  forall fuel v,
    stack_for rank v <= fuel -> exists b, isTransientNetworkError fuel h v = Ok b.
Proof.
  intros Hr Hm Hs Ha. induction fuel as [|fuel IH]; intros v Hv.
  - destruct v; simpl in Hv; lia.
  - cbn [Rejections.isTransientNetworkError].
    destruct (negb (truthy v)); [eauto|].
    match goal with |- context [if ?c then Ok true else _] => destruct c end;
      [eauto|].
    destruct v as [| | | | | | |a];
      try (rewrite getErrorCause_primitive by discriminate;
           unfold instanceof_TypeError, instanceof_AggregateError, class_of;
           cbn [andb]; eauto).
    rewrite getErrorCause_object.
    assert (Hmembers :
              exists b,
                (if instanceof_AggregateError h (VRef a)
                    && length_truthy h (get h (VRef a) "errors")
                 then match array_elems h (get h (VRef a) "errors") with
                      | Some errors => some_ (isTransientNetworkError fuel h) errors
                      | None => Throw "TypeError: err.errors.some is not a function"
                      end
                 else Ok false) = Ok b).
    { destruct (instanceof_AggregateError h (VRef a)
                && length_truthy h (get h (VRef a) "errors")) eqn:Eagg; [|eauto].
      apply andb_true_iff in Eagg. destruct Eagg as [Hi Hl].
      assert (cls (obj_at h a) = AggregateErrorClass) as Hcls.
      { unfold instanceof_AggregateError, class_of in Hi.
        destruct (cls (obj_at h a)); try discriminate Hi. reflexivity. }
      pose proof (Ha a Hcls Hl) as Harr.
      destruct (array_elems h (get h (VRef a) "errors")) as [l|] eqn:El;
        [|contradiction].
      destruct (some_all_return (isTransientNetworkError fuel h) l) as (b & Hb & _);
        [|eauto].
      intros m Hin. apply IH.
      destruct m as [| | | | | | |m]; simpl in Hv |- *; try lia.
      pose proof (Hm a l m El Hin). lia. }
    destruct (instanceof_TypeError h (VRef a) && _) eqn:Hf.
    + destruct (truthy (get h (VRef a) "cause")) eqn:Ht; [|eauto].
      apply IH. apply (cause_stack h rank a); [exact Hr| |exact Hv].
      destruct (get h (VRef a) "cause") as [| | | | | | |c] eqn:E; try reflexivity.
      simpl. apply Nat.eqb_neq. intros ->. exact (Hs a Hf E).
    + destruct (truthy (get h (VRef a) "cause")) eqn:Ht; cbn [andb];
        [|exact Hmembers].
      destruct (strict_eq (get h (VRef a) "cause") (VRef a)) eqn:Hd; cbn [negb];
        [exact Hmembers|].
      apply IH. now apply (cause_stack h rank a).
Qed.

End ReturnsBool.

Section ListenerTotal.

Variable extractErrorCode : heap -> value -> option string.
Variable formatUncaughtError : heap -> value -> string.
Variable handler_body : hid -> value -> state -> hresult * state.

Abbreviation handlers_loop := (handlers_loop handler_body).
Abbreviation isUnhandledRejectionHandled := (isUnhandledRejectionHandled handler_body).
Abbreviation unhandledRejection_listener :=
  (unhandledRejection_listener extractErrorCode formatUncaughtError handler_body).
Abbreviation registry_kept := (registry_kept handler_body).
Abbreviation heap_kept := (heap_kept handler_body).
Abbreviation visits := (visits handler_body).
Abbreviation after_verdict := (after_verdict formatUncaughtError).
Abbreviation well_formed_rejection := (well_formed_rejection handler_body).

Lemma listener_total rank fuel reason st :
  well_formed_rejection rank fuel reason st ->
  exists b calls st1,
    handlers_loop fuel 0 reason st [] = Ok (b, calls, st1)
    /\ isUnhandledRejectionHandled fuel reason st = Ok (b, st1)
    /\ visits reason (live (handlers st)) st b calls st1
    /\ st_heap st1 = st_heap st
    /\ handlers st1 = handlers st
    /\ (b = true -> unhandledRejection_listener fuel reason st = Ok st1)
    /\ (b = false ->
        exists c,
          first_matching extractErrorCode fuel (st_heap st) reason = Ok c
          /\ unhandledRejection_listener fuel reason st
             = Ok (after_verdict c reason st1)).
Proof.
  intros (Hkept & Hheap & Hr & Hm & Hs & Hc & Ha & Hlen & Hstack).
  destruct (handlers_loop_from handler_body reason (handlers st) Hkept (handlers st)
              0 st [] fuel)
    as (b & calls & st1 & Hrun & Hh & _); [reflexivity | reflexivity | exact Hlen |].
  destruct (handlers_loop_visits handler_body reason (handlers st) Hkept (handlers st)
              0 st [] fuel)
    as (b2 & calls2 & st2 & Hrun2 & Hv); [reflexivity | reflexivity | exact Hlen |].
  rewrite Hrun in Hrun2. injection Hrun2 as <- <- <-. cbn [app] in Hrun.
  pose proof (visits_heap handler_body _ _ _ _ _ _ Hheap Hv) as Hsame.
  assert (Hhandled : isUnhandledRejectionHandled fuel reason st = Ok (b, st1)).
  { unfold Rejections.isUnhandledRejectionHandled. rewrite Hrun. reflexivity. }
  exists b, calls, st1.
  split; [exact Hrun|]. split; [exact Hhandled|]. split; [exact Hv|].
  split; [exact Hsame|]. split; [exact Hh|]. split.
  - intros ->. unfold Rejections.unhandledRejection_listener.
    rewrite Hhandled. reflexivity.
  - intros ->.
    rewrite (listener_refines_priority extractErrorCode formatUncaughtError
               handler_body _ _ _ _ Hhandled), Hsame.
    destruct (isTransientNetworkError_returns extractErrorCode _ rank Hr Hm Hs Ha
                fuel reason Hstack) as (bt & Ht).
    destruct (isRateLimitError_returns _ rank Hr Hc fuel reason Hstack) as (br & Hrl).
    unfold first_matching. rewrite Ht, Hrl.
    destruct (isAbortError (st_heap st) reason); [eauto|].
    destruct (isFatalError extractErrorCode (st_heap st) reason); [eauto|].
    destruct (isConfigError extractErrorCode (st_heap st) reason); [eauto|].
    destruct bt; [cbn; eauto|]. destruct br; cbn; eauto.
Qed.

(** X13: On a well-formed rejection the listener returns.  It leaves the
    heap and the registry as they were.  A rejection that a handler
    claimed leaves no trace beyond what the run over the handlers left;
    any other adds one console line carrying the formatted reason, and
    the process exits, with code 1, exactly when that line is an error
    line. *)
Theorem listener_effects (rank : addr -> nat) (fuel : nat) (reason : value)
    (st : state) :
  well_formed_rejection rank fuel reason st ->
  exists b calls st1 st',
    handlers_loop fuel 0 reason st [] = Ok (b, calls, st1)
    /\ visits reason (live (handlers st)) st b calls st1
    /\ unhandledRejection_listener fuel reason st = Ok st'
    /\ st_heap st' = st_heap st
    /\ handlers st' = handlers st
    /\ (b = true -> st' = st1)
    /\ (b = false ->
        exists txt,
          let line lv :=
            ConsoleLog lv txt (VStr (formatUncaughtError (st_heap st) reason)) in
          events st' = (events st1 ++ [line LWarn])%list
          \/ events st' = (events st1 ++ [line LError; ProcessExit 1])%list).
Proof.
  intros Hwf.
  destruct (listener_total rank fuel reason st Hwf)
    as (b & calls & st1 & Hrun & _ & Hv & Hsame & Hh & Ht & Hf).
  destruct b.
  - exists true, calls, st1, st1.
    split; [exact Hrun|]. split; [exact Hv|]. split; [exact (Ht eq_refl)|].
    split; [exact Hsame|]. split; [exact Hh|]. split; [reflexivity | discriminate].
  - destruct (Hf eq_refl) as (c & _ & Hl).
    exists false, calls, st1, (after_verdict c reason st1).
    split; [exact Hrun|]. split; [exact Hv|]. split; [exact Hl|].
    split; [exact Hsame|]. split; [exact Hh|]. split; [discriminate|].
    intros _. exists (log_text c). cbn [Policy.after_verdict events].
    rewrite Hsame. destruct c; cbn; auto.
Qed.

(** X20: On a well-formed rejection that no handler claims, the listener
    returns after acting on the first classification that matches in the
    order Abort, Fatal, Config, TransientNetwork, RateLimit, Unclassified:
    one log line for that classification, then [process.exit(1)] exactly
    when it is Fatal, Config or Unclassified. *)
Theorem listener_acts_on_first_match (rank : addr -> nat) (fuel : nat)
    (reason : value) (st : state) :
  well_formed_rejection rank fuel reason st ->
  forall st1,
    isUnhandledRejectionHandled fuel reason st = Ok (false, st1) ->
    exists c,
      first_matching extractErrorCode fuel (st_heap st) reason = Ok c
      /\ unhandledRejection_listener fuel reason st
         = Ok {| st_heap := st_heap st1; handlers := handlers st1;
                 events :=
                   (events st1
                    ++ verdict c (VStr (formatUncaughtError (st_heap st) reason)))%list |}
      /\ (In (ProcessExit 1)
            (verdict c (VStr (formatUncaughtError (st_heap st) reason)))
          <-> c = Fatal \/ c = Config \/ c = Unclassified).
Proof.
  intros Hwf st1 Hhandled.
  destruct (listener_total rank fuel reason st Hwf)
    as (b & calls & st2 & _ & Hhandled2 & _ & Hsame & _ & _ & Hf).
  rewrite Hhandled in Hhandled2. injection Hhandled2 as <- <-.
  destruct (Hf eq_refl) as (c & Hc & Hl).
  exists c. split; [exact Hc|]. split.
  - rewrite Hl. unfold Policy.after_verdict. rewrite Hsame. reflexivity.
  - rewrite verdict_exits. destruct c; simpl; intuition discriminate.
Qed.

End ListenerTotal.

(** * The further properties on the samples *)

Import MoreExamples.

(** An address beyond those of a sample heap holds nothing. *)
Lemma beyond_sample (l : list (addr * object)) (a : addr) :
  (forall k o, In (k, o) l -> k < a) ->
  obj_at (list_to_map l) a = empty_object.
Proof.
  intros H. unfold obj_at.
  destruct (_ !! a) as [o|] eqn:E; [|reflexivity].
  apply elem_of_list_to_map_2, list_elem_of_In in E.
  specialize (H _ _ E). lia.
Qed.

Lemma deep_heap_beyond a : 6 <= a -> obj_at deep_heap a = empty_object.
Proof.
  intros Ha. apply beyond_sample. intros k o H. simpl in H.
  repeat (destruct H as [H|H]; [injection H as <- _; lia|]). destruct H.
Qed.

Lemma deep_heap_causes_ranked : causes_ranked deep_heap deep_rank.
Proof.
  intros a c H Hne.
  destruct a as [|[|[|[|[|[|a]]]]]];
    try (vm_compute in H; first [discriminate H | injection H as <-]; simpl; lia).
  unfold get in H. rewrite deep_heap_beyond in H by lia. discriminate H.
Qed.

Lemma deep_heap_members_ranked : members_ranked deep_heap deep_rank.
Proof.
  intros a l m H Hin.
  destruct a as [|[|[|[|[|[|a]]]]]]; try (vm_compute in H; discriminate H).
  unfold get, array_elems in H. rewrite deep_heap_beyond in H by lia.
  cbn in H. rewrite (lookup_empty (M := gmap string)) in H. cbn in H.
  discriminate H.
Qed.

Lemma deep_heap_no_fetch_failed_self_cause : no_fetch_failed_self_cause deep_heap.
Proof.
  intros a Hf H.
  destruct a as [|[|[|[|[|[|a]]]]]]; try (vm_compute in H; discriminate H).
  unfold get in H. rewrite deep_heap_beyond in H by lia. discriminate H.
Qed.

Lemma isTransientNetworkError_defers_to_cause_witness :
  transient_returns Collaborators.extractErrorCode fatal_heap (VRef 3) false.
Proof.
  apply (isTransientNetworkError_defers_to_cause Collaborators.extractErrorCode
           fatal_heap (VRef 3) false); [reflexivity | reflexivity | reflexivity |].
  exists 1. reflexivity.
Defined.

Lemma transient_code_along_cause_chain_witness :
  transient_returns Collaborators.extractErrorCode deep_heap (VRef 1) true.
Proof.
  apply (transient_code_along_cause_chain Collaborators.extractErrorCode
           deep_heap (VRef 1) (VRef 4) "ECONNRESET");
    [|reflexivity|reflexivity|reflexivity].
  apply reaches_cause; [reflexivity | reflexivity |].
  apply (reaches_cause deep_heap (VRef 2)); [reflexivity | reflexivity |].
  apply (reaches_cause deep_heap (VRef 3)); [reflexivity | reflexivity |].
  apply (reaches_here deep_heap (VRef 4)).
Defined.

Lemma fetch_failed_verdict_witness :
  isTransientNetworkError Collaborators.extractErrorCode 1 deep_heap (VRef 5) = Ok true.
Proof.
  apply (proj1 (fetch_failed_verdict Collaborators.extractErrorCode 0 deep_heap
                  (VRef 5) eq_refl)).
  reflexivity.
Defined.

Lemma isRateLimitError_terminates_witness :
  (exists b, isRateLimitError 5 deep_heap (VRef 1) = Ok b)
  \/ (exists msg, isRateLimitError 5 deep_heap (VRef 1) = Throw msg).
Proof.
  apply (isRateLimitError_terminates deep_heap deep_rank 5 (VRef 1)).
  - exact deep_heap_causes_ranked.
  - simpl. lia.
Defined.

Lemma isTransientNetworkError_terminates_witness :
  (exists b, isTransientNetworkError Collaborators.extractErrorCode 5 deep_heap (VRef 1)
             = Ok b)
  \/ (exists msg,
        isTransientNetworkError Collaborators.extractErrorCode 5 deep_heap (VRef 1)
        = Throw msg).
Proof.
  apply (isTransientNetworkError_terminates Collaborators.extractErrorCode
           deep_heap deep_rank 5 (VRef 1)).
  - exact deep_heap_causes_ranked.
  - exact deep_heap_members_ranked.
  - exact deep_heap_no_fetch_failed_self_cause.
  - simpl. lia.
Defined.

Lemma isRateLimitError_reads_message_witness :
  isRateLimitError 1 limit_heap (VRef 1) = Ok true.
Proof.
  apply (proj1 (isRateLimitError_reads_message 0 limit_heap (VRef 1)
                  "You have exceeded your current Quota" eq_refl eq_refl)).
  exists true, "quota". split; [simpl; auto 12|].
  exists "You have exceeded your current ", "Quota", "". split; reflexivity.
Defined.

Lemma isRateLimitError_follows_cause_witness :
  rate_limit_returns limit_heap (VRef 2) true.
Proof.
  apply (proj1 (isRateLimitError_follows_cause limit_heap (VRef 2) "Request failed"
                  eq_refl eq_refl eq_refl)).
  exists 1. reflexivity.
Defined.

Lemma registry_never_holds_a_handler_twice_witness :
  List.NoDup (live (handlers (registry_after history bare_process))).
Proof.
  apply (registry_never_holds_a_handler_twice history bare_process). constructor.
Defined.

Lemma handlers_called_once_each_witness :
  exists b calls st',
    handlers_loop sample_handler_body 4 0 (VRef 1) three_handlers [] = Ok (b, calls, st')
    /\ List.NoDup (map fst calls)
    /\ (forall handler, In handler (map fst calls) ->
                        In handler (live (handlers three_handlers)))
    /\ (live (handlers three_handlers) = [] -> b = false /\ calls = []).
Proof.
  apply (handlers_called_once_each sample_handler_body (VRef 1) three_handlers).
  - intros hd st _. destruct hd as [|[|[|hd]]]; reflexivity.
  - repeat constructor; simpl; intuition discriminate.
Defined.

Lemma deep_heap_messages_convert : messages_convert deep_heap.
Proof.
  intros a Hi H.
  destruct a as [|[|[|[|[|[|a]]]]]]; try (vm_compute in H; discriminate H).
  unfold instanceof_Error, class_of in Hi. rewrite deep_heap_beyond in Hi by lia.
  discriminate Hi.
Qed.

Lemma deep_heap_members_are_arrays : members_are_arrays deep_heap.
Proof.
  intros a Hcls Hl H.
  destruct a as [|[|[|[|[|[|a]]]]]]; try (vm_compute in Hcls; discriminate Hcls).
  rewrite deep_heap_beyond in Hcls by lia. discriminate Hcls.
Qed.

Lemma deep_process_well_formed :
  well_formed_rejection sample_handler_body deep_rank 5 (VRef 1) deep_process.
Proof.
  split; [intros hd st _; destruct hd as [|[|[|hd]]]; reflexivity|].
  split; [intros hd st; destruct hd as [|[|[|hd]]]; reflexivity|].
  split; [exact deep_heap_causes_ranked|].
  split; [exact deep_heap_members_ranked|].
  split; [exact deep_heap_no_fetch_failed_self_cause|].
  split; [exact deep_heap_messages_convert|].
  split; [exact deep_heap_members_are_arrays|].
  split; simpl; lia.
Qed.

Lemma listener_effects_witness :
  exists b calls st1 st',
    handlers_loop sample_handler_body 5 0 (VRef 1) deep_process [] = Ok (b, calls, st1)
    /\ visits sample_handler_body (VRef 1) (live (handlers deep_process))
         deep_process b calls st1
    /\ unhandledRejection_listener Collaborators.extractErrorCode
         Collaborators.formatUncaughtError sample_handler_body 5 (VRef 1) deep_process
       = Ok st'
    /\ st_heap st' = st_heap deep_process
    /\ handlers st' = handlers deep_process
    /\ (b = true -> st' = st1)
    /\ (b = false ->
        exists txt,
          let line lv :=
            ConsoleLog lv txt
              (VStr (Collaborators.formatUncaughtError (st_heap deep_process) (VRef 1))) in
          events st' = (events st1 ++ [line LWarn])%list
          \/ events st' = (events st1 ++ [line LError; ProcessExit 1])%list).
Proof.
  exact (listener_effects Collaborators.extractErrorCode
           Collaborators.formatUncaughtError sample_handler_body deep_rank 5 (VRef 1)
           deep_process deep_process_well_formed).
Defined.

(** On the sample: the first handler throws, the second declines, and the
    transient reason is logged as a warning. *)
Example deep_process_run :
  unhandledRejection_listener Collaborators.extractErrorCode
    Collaborators.formatUncaughtError sample_handler_body 5 (VRef 1) deep_process
  = Ok {| st_heap := deep_heap; handlers := [Some 1; Some 3];
          events :=
            [ ConsoleLog LError "[openclaw] Unhandled rejection handler failed:"
                (VStr "handler failed");
              ConsoleLog LWarn "[openclaw] Non-fatal unhandled rejection (continuing):"
                (VStr "fetch failed") ] |}.
Proof. reflexivity. Qed.

Lemma listener_acts_on_first_match_witness :
  exists c,
    first_matching Collaborators.extractErrorCode 5 (st_heap deep_process) (VRef 1)
    = Ok c
    /\ unhandledRejection_listener Collaborators.extractErrorCode
         Collaborators.formatUncaughtError sample_handler_body 5 (VRef 1) deep_process
       = Ok {| st_heap := deep_heap; handlers := [Some 1; Some 3];
               events :=
                 ([ ConsoleLog LError "[openclaw] Unhandled rejection handler failed:"
                      (VStr "handler failed") ]
                  ++ verdict c
                       (VStr (Collaborators.formatUncaughtError
                                (st_heap deep_process) (VRef 1))))%list |}
    /\ (In (ProcessExit 1)
          (verdict c
             (VStr (Collaborators.formatUncaughtError (st_heap deep_process) (VRef 1))))
        <-> c = Fatal \/ c = Config \/ c = Unclassified).
Proof.
  exact (listener_acts_on_first_match Collaborators.extractErrorCode
           Collaborators.formatUncaughtError sample_handler_body deep_rank 5 (VRef 1)
           deep_process deep_process_well_formed
           (console_error "[openclaw] Unhandled rejection handler failed:"
              (VStr "handler failed") deep_process)
           eq_refl).
Defined.

Lemma primitives_are_not_transient_witness :
  isTransientNetworkError Collaborators.extractErrorCode 1 ∅ (VStr "ECONNRESET")
  = Ok false.
Proof.
  apply (primitives_are_not_transient Collaborators.extractErrorCode 0 ∅
           (VStr "ECONNRESET")); [|discriminate].
  intros h' v' Hv. unfold Collaborators.extractErrorCode.
  destruct v'; cbn [truthy typeof type_tag_eqb negb orb];
    try reflexivity; try (rewrite orb_true_r; reflexivity).
  exfalso. apply (Hv a). reflexivity.
Defined.

Lemma aggregate_without_members_witness :
  isTransientNetworkError Collaborators.extractErrorCode 1 odd_heap (VRef 2) = Ok false.
Proof.
  apply (aggregate_without_members Collaborators.extractErrorCode 0 odd_heap 2);
    [reflexivity | reflexivity | reflexivity | right; reflexivity].
Defined.

Lemma malformed_errors_throw_witness :
  isTransientNetworkError Collaborators.extractErrorCode 1 odd_heap (VRef 1)
  = Throw "TypeError: err.errors.some is not a function"
  /\ isRateLimitError 1 odd_heap (VRef 4)
     = Throw "TypeError: Cannot convert a Symbol value to a string".
Proof.
  split.
  - apply (proj1 (malformed_errors_throw Collaborators.extractErrorCode 0 odd_heap 1));
      reflexivity.
  - apply (proj2 (malformed_errors_throw Collaborators.extractErrorCode 0 odd_heap 4));
      reflexivity.
Defined.

Lemma handler_failures_are_logged_witness :
  exists b calls st' lines,
    handlers_loop sample_handler_body 4 0 (VRef 1) three_handlers [] = Ok (b, calls, st')
    /\ visits sample_handler_body (VRef 1) (live (handlers three_handlers))
         three_handlers b calls st'
    /\ events st' = (events three_handlers ++ lines)%list
    /\ Forall2 logs_failure lines (List.filter is_throw calls).
Proof.
  apply (handler_failures_are_logged sample_handler_body (VRef 1) three_handlers).
  - intros hd st _. destruct hd as [|[|[|hd]]]; reflexivity.
  - intros hd st. destruct hd as [|[|[|hd]]]; reflexivity.
Defined.

Lemma claiming_handler_wins_witness :
  exists st',
    isUnhandledRejectionHandled sample_handler_body 4 (VRef 1) three_handlers
    = Ok (true, st').
Proof.
  apply (claiming_handler_wins sample_handler_body (VRef 1) three_handlers 2).
  - intros hd st _. destruct hd as [|[|[|hd]]]; reflexivity.
  - simpl. auto.
  - reflexivity.
Defined.

Lemma unregistered_handler_is_not_called_witness :
  exists b calls st',
    handlers_loop sample_handler_body 4 0 (VRef 1)
      (snd (registerUnhandledRejectionHandler 2 bare_process) three_handlers) []
    = Ok (b, calls, st')
    /\ ~ In 2 (map fst calls).
Proof.
  apply (unregistered_handler_is_not_called sample_handler_body (VRef 1)
           bare_process three_handlers 2).
  intros hd st _. destruct hd as [|[|[|hd]]]; reflexivity.
Defined.
